(** * Taskly admin service: the event handlers of [srv/admin-service.ts]

    A shallow embedding of the [before], [after] and [on] handlers that
    [AdminService.init] registers, over a store of Projects and Tasks
    keyed by their [ID], followed by the properties of those handlers. *)

From Stdlib Require Import ZArith NArith Lia Ascii SpecFloat PrimFloat FloatOps.
From stdpp Require Import gmap strings list fin_maps pretty.

(** ** JavaScript values *)

(** A property of a request payload: left out ([undefined]), sent as
    [null], or carrying a value. *)
Inductive field (A : Type) : Type :=
  | Undefined
  | Null
  | Val (a : A).
Arguments Undefined {A}.
Arguments Null {A}.
Arguments Val {A} a.

(** A column read from the store is never [undefined]: it is [null]
    ([None]) or a value. *)
Definition column {A} (c : option A) : field A :=
  match c with
  | Some a => Val a
  | None => Null
  end.

(** [x !== undefined] *)
Definition defined {A} (x : field A) : bool :=
  match x with
  | Undefined => false
  | _ => true
  end.

(** The handlers on the store take budgets, costs and hours as whole
    numbers: on integers below 2^53 the sums, differences and comparisons
    of JavaScript are exact. Amounts that arrive as texts or carry a
    fraction are the subject of the section on the amounts as JavaScript
    values. *)
Definition truthy (x : field Z) : bool :=
  match x with
  | Val z => negb (z =? 0)%Z
  | _ => false
  end.

(** Truthiness of a string-valued property (a date, an identifier, a name). *)
Definition truthy_str (x : field string) : bool :=
  match x with
  | Val s => negb (String.eqb s "")
  | _ => false
  end.

(** [ToNumber]: [null] is 0, [undefined] is NaN ([None]). *)
Definition toNumber (x : field Z) : option Z :=
  match x with
  | Val z => Some z
  | Null => Some 0%Z
  | Undefined => None
  end.

(** [x < y]; a comparison with NaN is false. *)
Definition js_lt (x y : field Z) : bool :=
  match toNumber x, toNumber y with
  | Some a, Some b => (a <? b)%Z
  | _, _ => false
  end.

(** [x > y] *)
Definition js_gt (x y : field Z) : bool := js_lt y x.

(** [x - y] on columns of a stored row ([null] counts as 0). *)
Definition js_sub (x y : option Z) : Z := (default 0 x - default 0 y)%Z.

(** [x + y] with a stored column on the left. *)
Definition js_add (x : option Z) (y : Z) : Z := (default 0 x + y)%Z.

(** [x || 0] *)
Definition or_zero (x : field Z) : Z :=
  match x with
  | Val z => z
  | _ => 0%Z
  end.

(** ** Dates *)

(** A calendar date [YYYY-MM-DD] is its day number since the epoch;
    [new Date(d)] reads a date-only string as midnight UTC and gives the
    time value in milliseconds, which is what [<] compares. *)
Definition Date := Z.
Definition msPerDay : Z := 86400000.
Definition newDate (d : Date) : Z := (d * msPerDay)%Z.

(** The clock of the server: the time value of [new Date()] and the
    offset of the local time zone, local time = UTC + [tzOffset], both in
    milliseconds. *)
Record Clock := { now : Z; tzOffset : Z }.

(** [today = new Date(); today.setHours(0, 0, 0, 0)]: the time value of
    the last local midnight. *)
Definition todayMidnight (c : Clock) : Z :=
  ((now c + tzOffset c) `div` msPerDay * msPerDay - tzOffset c)%Z.

(** The local calendar date of the clock. *)
Definition localDate (c : Clock) : Date :=
  ((now c + tzOffset c) `div` msPerDay)%Z.

(** ** Double precision numbers *)

(** The completion rate goes through a division and a product of doubles,
    so these are binary64 operations of the Standard Library's
    specification of IEEE 754. *)
Definition Number (z : Z) : spec_float := binary_normalize 53 1024 z 0 false.
Definition js_div : spec_float -> spec_float -> spec_float := SFdiv 53 1024.
Definition js_mul : spec_float -> spec_float -> spec_float := SFmul 53 1024.

Global Instance spec_float_eq_dec : EqDecision spec_float.
Proof. solve_decision. Defined.

(** floor (m * 2^e + 1/2) *)
Definition round_half_up (m e : Z) : Z :=
  match e with
  | Zneg p => ((2 * m + 2 ^ Zpos p) `div` 2 ^ (Zpos p + 1))%Z
  | _ => (m * 2 ^ e)%Z
  end.

(** [Math.round]: the nearest integer, ties towards +Infinity. *)
Definition Math_round (x : spec_float) : spec_float :=
  match x with
  | S754_finite s m e =>
      binary_normalize 53 1024 (round_half_up (cond_Zopp s (Zpos m)) e) 0 s
  | _ => x
  end.

(** [p * 2 ^ k] *)
Definition shl (p : positive) (k : Z) : positive :=
  match k with
  | Zpos j => Pos.iter xO p j
  | _ => p
  end.

(** ** Entities ([db/schema.cds]) *)

Inductive ProjectStatus := Planning | Active | OnHold | Completed | Cancelled.
Inductive TaskPriority := Low | Medium | High | Critical.
Inductive TaskStatus := ToDo | InProgress | InReview | Done | Blocked.

Global Instance TaskStatus_eq_dec : EqDecision TaskStatus.
Proof. solve_decision. Defined.

(** [status === 'DONE'] *)
Definition is_done (s : TaskStatus) : bool :=
  match s with
  | Done => true
  | _ => false
  end.

Record Project := {
  p_ID : string;
  p_name : string;
  p_description : option string;
  p_status : ProjectStatus;
  p_budget : option Z;
  p_actualCost : option Z;
  p_startDate : option Date;
  p_endDate : option Date;
}.

Record Task := {
  t_ID : string;
  t_title : string;
  t_description : option string;
  t_priority : TaskPriority;
  t_status : TaskStatus;
  t_estimatedHours : option Z;
  t_actualHours : option Z;
  t_dueDate : option Date;
  t_completedAt : option Z;
  t_assignedTo : option string;
  t_project_ID : option string;
}.

(** The two tables; [ID] is the key. *)
Record Store := {
  Projects : gmap string Project;
  Tasks : gmap string Task;
}.

(** [SELECT.one.from(T).where({ ID: id })] *)
Definition select_one {A} (tbl : gmap string A) (id : string) : option A :=
  tbl !! id.

(** [SELECT.from(T).where(p)] *)
Definition select_where {A} (p : A -> bool) (tbl : gmap string A) : list A :=
  List.filter p (snd <$> map_to_list tbl).

(** [UPDATE(T).set(f).where({ ID: id })] *)
Definition update_where {A} (f : A -> A) (id : string) (tbl : gmap string A)
  : gmap string A :=
  alter f id tbl.

(** [{ project_ID: id }] as a [where] clause; [null] equals nothing. *)
Definition of_project (id : string) (t : Task) : bool :=
  match t_project_ID t with
  | Some p => String.eqb p id
  | None => false
  end.

(** ** The request *)

(** What a handler sees of a request: the store, and the errors and
    warnings registered so far. *)
Record Req := {
  db : Store;
  errors : list (Z * string);
  warnings : list string;
}.

Definition Handler (A : Type) : Type := Req -> A * Req.

Global Instance Handler_ret : MRet Handler := fun A a r => (a, r).

Global Instance Handler_bind : MBind Handler := fun A B k h r =>
  let '(a, r') := h r in k a r'.

(** [req.error(code, message)] registers the error; the handler goes on. *)
Definition req_error (code : Z) (msg : string) : Handler unit :=
  fun r => (tt, {| db := db r; errors := errors r ++ [(code, msg)];
                   warnings := warnings r |}).

(** [req.warn(message)] *)
Definition req_warn (msg : string) : Handler unit :=
  fun r => (tt, {| db := db r; errors := errors r;
                   warnings := warnings r ++ [msg] |}).

Definition read_db : Handler Store := fun r => (db r, r).

Definition write_db (f : Store -> Store) : Handler unit :=
  fun r => (tt, {| db := f (db r); errors := errors r;
                   warnings := warnings r |}).

(** [if (c) { h }] *)
Definition when (c : bool) (h : Handler unit) : Handler unit :=
  if c then h else mret tt.

(** The answer to a request: the payload with the warnings attached, or
    the registered errors. *)
Inductive Response (A : Type) : Type :=
  | Succeeded (payload : A) (warns : list string)
  | Failed (errs : list (Z * string)).
Arguments Succeeded {A} payload warns.
Arguments Failed {A} errs.

Definition start (st : Store) : Req :=
  {| db := st; errors := []; warnings := [] |}.

(** Modelled from the spec: the request context of the protocol layer,
    which is not part of the sources. An error signalled with [req.error]
    is blocking: once a phase has signalled one the request is aborted,
    nothing of it is committed and the errors are returned to the caller;
    warnings are attached to the successful response. *)
Definition dispatch {A} (before : Handler unit) (on : Handler A) (st : Store)
  : Response A * Store :=
  let '(_, r1) := before (start st) in
  match errors r1 with
  | [] =>
      let '(a, r2) := on r1 in
      match errors r2 with
      | [] => (Succeeded a (warnings r2), db r2)
      | errs => (Failed errs, st)
      end
  | errs => (Failed errs, st)
  end.

(** A request answered with nothing but errors of one status code. *)
Definition rejected_with {A} (code : Z) (resp : Response A) : Prop :=
  exists errs, resp = Failed errs /\ errs <> [] /\
    Forall (fun e => e.1 = code) errs.

(** ** Strings *)

(** The double quote character of the message templates. *)
Definition dquote : string := String (Ascii.ascii_of_nat 34) EmptyString.

(** Strings are held as their UTF-8 bytes. *)
Definition byte (c : Ascii.ascii) : N := Ascii.N_of_ascii c.

Definition bytes (l : list N) : string :=
  fold_right (fun n s => String (Ascii.ascii_of_N n) s) EmptyString l.

(** The code points [String.prototype.trim] strips: the WhiteSpace and
    LineTerminator productions of ECMAScript (tab, line feed, vertical
    tab, form feed, carriage return, space, no-break space, the space
    separators of Unicode, line and paragraph separator, byte order
    mark). *)
Definition white_space_code_points : list N :=
  [9; 10; 11; 12; 13; 32; 160; 5760; 8192; 8193; 8194; 8195; 8196; 8197; 8198;
   8199; 8200; 8201; 8202; 8232; 8233; 8239; 8287; 12288; 65279]%N.

Definition is_white_space (cp : N) : bool :=
  bool_decide (cp ∈ white_space_code_points).

Definition continuation (n : N) : bool := (128 <=? n)%N && (n <=? 191)%N.

(** The code point of a sequence of two bytes. *)
Definition two_bytes (n1 n2 : N) : option N :=
  if (194 <=? n1)%N && (n1 <=? 223)%N && continuation n2
  then Some ((n1 - 192) * 64 + (n2 - 128))%N else None.

(** The code point of a sequence of three bytes. *)
Definition three_bytes (n1 n2 n3 : N) : option N :=
  let cp := ((n1 - 224) * 4096 + (n2 - 128) * 64 + (n3 - 128))%N in
  if (224 <=? n1)%N && (n1 <=? 239)%N && continuation n2 && continuation n3
     && (2048 <=? cp)%N
  then Some cp else None.

(** [s.trimStart()]: no code point of four bytes is white space. *)
Fixpoint trimStart (s : string) : string :=
  match s with
  | EmptyString => s
  | String b1 s1 =>
      if (byte b1 <? 128)%N then
        if is_white_space (byte b1) then trimStart s1 else s
      else
        match s1 with
        | String b2 s2 =>
            match two_bytes (byte b1) (byte b2) with
            | Some cp => if is_white_space cp then trimStart s2 else s
            | None =>
                match s2 with
                | String b3 s3 =>
                    match three_bytes (byte b1) (byte b2) (byte b3) with
                    | Some cp => if is_white_space cp then trimStart s3 else s
                    | None => s
                    end
                | EmptyString => s
                end
            end
        | EmptyString => s
        end
  end.

(** [s.trimEnd()]: the string is cut where all that follows is white
    space. *)
Fixpoint trimEnd (s : string) : string :=
  match s with
  | EmptyString => s
  | String c s' =>
      if String.eqb (trimStart s) EmptyString then EmptyString
      else String c (trimEnd s')
  end.

(** [s.trim()] *)
Definition trim (s : string) : string := trimEnd (trimStart s).

(** The white space characters, each as the bytes that encode it: U+0009
    to U+000D, U+0020, U+00A0, U+1680, U+2000 to U+200A, U+2028, U+2029,
    U+202F, U+205F, U+3000, U+FEFF. *)
Definition white_space_characters : list string :=
  bytes <$>
    [[9]; [10]; [11]; [12]; [13]; [32]; [194; 160]; [225; 154; 128];
     [226; 128; 128]; [226; 128; 129]; [226; 128; 130]; [226; 128; 131];
     [226; 128; 132]; [226; 128; 133]; [226; 128; 134]; [226; 128; 135];
     [226; 128; 136]; [226; 128; 137]; [226; 128; 138]; [226; 128; 168];
     [226; 128; 169]; [226; 128; 175]; [226; 129; 159]; [227; 128; 128];
     [239; 187; 191]]%N.

(** A string that is empty or made of white space characters only. *)
Inductive Blank : string -> Prop :=
  | Blank_empty : Blank EmptyString
  | Blank_more w s :
      w ∈ white_space_characters -> Blank s -> Blank (w +:+ s).

(** ** BEFORE handlers: validation *)

(** The properties of [req.data] that the Projects handler reads. *)
Record ProjectData := {
  startDate : field Date;
  endDate : field Date;
  budget : field Z;
  actualCost : field Z;
}.

(** [this.before(['CREATE', 'UPDATE'], Projects, ...)] *)
Definition beforeWriteProjects (project : ProjectData) : Handler unit :=
  match startDate project, endDate project with
  | Val s, Val e =>
      let start := newDate s in
      let end_ := newDate e in
      when (end_ <? start)%Z
        (req_error 400 "End date must be after start date")
  | _, _ => mret tt
  end ;;
  when (defined (budget project) && js_lt (budget project) (Val 0%Z))
    (req_error 400 "Budget cannot be negative") ;;
  when (defined (actualCost project) && js_lt (actualCost project) (Val 0%Z))
    (req_error 400 "Actual cost cannot be negative") ;;
  when (truthy (budget project) && truthy (actualCost project)
        && js_gt (actualCost project) (budget project))
    (req_warn "Actual cost exceeds budget").

(** The properties of [req.data] that the Tasks handler reads. *)
Record TaskData := {
  estimatedHours : field Z;
  actualHours : field Z;
  project_ID : field string;
}.

(** [this.before(['CREATE', 'UPDATE'], Tasks, ...)] *)
Definition beforeWriteTasks (task : TaskData) : Handler unit :=
  when (defined (estimatedHours task)
        && js_lt (estimatedHours task) (Val 0%Z))
    (req_error 400 "Estimated hours cannot be negative") ;;
  when (defined (actualHours task) && js_lt (actualHours task) (Val 0%Z))
    (req_error 400 "Actual hours cannot be negative") ;;
  match project_ID task with
  | Val id =>
      if truthy_str (Val id) then
        st ← read_db ;
        match select_one (Projects st) id with
        | None => req_error 404 ("Project with ID " +:+ id +:+ " not found")
        | Some _ => mret tt
        end
      else mret tt
  | _ => mret tt
  end.

(** The tasks that block the deletion of a project:
    [{ project_ID: projectID, status: { '!=': 'DONE' } }]. *)
Definition active_of (projectID : string) (t : Task) : bool :=
  of_project projectID t && negb (is_done (t_status t)).

(** [this.before('DELETE', Projects, ...)] *)
Definition beforeDeleteProjects (projectID : string) : Handler unit :=
  st ← read_db ;
  let activeTasks := select_where (active_of projectID) (Tasks st) in
  when (0 <? length activeTasks)%nat
    (req_error 400
       ("Cannot delete project with " +:+ pretty (length activeTasks)
        +:+ " active task(s). Complete or reassign them first.")).

(** ** AFTER handlers: calculated fields *)

(** The result of a READ: one row (or none), or an array of rows. *)
Inductive ReadResult (A : Type) : Type :=
  | Single (row : option A)
  | Collection (rows : list A).
Arguments Single {A} row.
Arguments Collection {A} rows.

(** The handlers go through [Array.isArray(r) ? r : [r]], skip a missing
    row and set the virtual fields of every other one. *)
Definition each_row {A B} (f : A -> B) (r : ReadResult A) : ReadResult B :=
  match r with
  | Single row => Single (f <$> row)
  | Collection rows => Collection (f <$> rows)
  end.

(** The rows of a result. *)
Definition rows_of {A} (r : ReadResult A) : list A :=
  match r with
  | Single (Some row) => [row]
  | Single None => []
  | Collection rows => rows
  end.

(** [total > 0 ? Math.round((completed / total) * 100) : 0] *)
Definition completion_rate (completedTasks totalTasks : nat) : spec_float :=
  if (0 <? totalTasks)%nat then
    Math_round
      (js_mul (js_div (Number (Z.of_nat completedTasks))
                      (Number (Z.of_nat totalTasks)))
              (Number 100))
  else Number 0.

(** A project as returned by a READ, with its virtual fields. *)
Record ProjectRead := {
  project_row : Project;
  completionRate : spec_float;
  remainingBudget : option Z;
}.

Definition project_fields (st : Store) (project : Project) : ProjectRead :=
  let tasks := select_where (of_project (p_ID project)) (Tasks st) in
  let totalTasks := length tasks in
  let completedTasks :=
    length (List.filter (fun t => is_done (t_status t)) tasks) in
  {| project_row := project;
     completionRate := completion_rate completedTasks totalTasks;
     remainingBudget :=
       if truthy (column (p_budget project)) then
         Some (js_sub (p_budget project)
                 (Some (or_zero (column (p_actualCost project)))))
       else None |}.

(** [this.after('READ', Projects, ...)] *)
Definition afterReadProjects (st : Store) (projects : ReadResult Project)
  : ReadResult ProjectRead :=
  each_row (project_fields st) projects.

(** The overdue test shared by the Tasks handler and [getProjectStats]. *)
Definition overdue (c : Clock) (task : Task) : bool :=
  match t_dueDate task with
  | Some d =>
      if negb (is_done (t_status task)) then
        let dueDate := newDate d in
        let today := todayMidnight c in
        (dueDate <? today)%Z
      else false
  | None => false
  end.

(** A task as returned by a READ, with its virtual field. *)
Record TaskRead := {
  task_row : Task;
  isOverdue : bool;
}.

(** [this.after('READ', Tasks, ...)] *)
Definition afterReadTasks (c : Clock) (tasks : ReadResult Task)
  : ReadResult TaskRead :=
  each_row (fun task => {| task_row := task; isOverdue := overdue c task |})
    tasks.

(** ** ON handlers: custom actions *)

(** [{ success, message }] *)
Record ActionResult := {
  success : bool;
  message : string;
}.

(** [.set({ status: 'DONE', completedAt: ... })] *)
Definition set_completed (at_ : Z) (t : Task) : Task :=
  {| t_ID := t_ID t; t_title := t_title t; t_description := t_description t;
     t_priority := t_priority t; t_status := Done;
     t_estimatedHours := t_estimatedHours t;
     t_actualHours := t_actualHours t; t_dueDate := t_dueDate t;
     t_completedAt := Some at_; t_assignedTo := t_assignedTo t;
     t_project_ID := t_project_ID t |}.

(** [.set({ assignedTo: ..., status: ... })] *)
Definition set_assigned (who : string) (s : TaskStatus) (t : Task) : Task :=
  {| t_ID := t_ID t; t_title := t_title t; t_description := t_description t;
     t_priority := t_priority t; t_status := s;
     t_estimatedHours := t_estimatedHours t;
     t_actualHours := t_actualHours t; t_dueDate := t_dueDate t;
     t_completedAt := t_completedAt t; t_assignedTo := Some who;
     t_project_ID := t_project_ID t |}.

(** [.set({ budget: ..., actualCost: ... })] *)
Definition set_budget (b c : option Z) (p : Project) : Project :=
  {| p_ID := p_ID p; p_name := p_name p; p_description := p_description p;
     p_status := p_status p; p_budget := b; p_actualCost := c;
     p_startDate := p_startDate p; p_endDate := p_endDate p |}.

Definition update_Tasks (f : Task -> Task) (id : string) : Handler unit :=
  write_db (fun st =>
    {| Projects := Projects st; Tasks := update_where f id (Tasks st) |}).

Definition update_Projects (f : Project -> Project) (id : string)
  : Handler unit :=
  write_db (fun st =>
    {| Projects := update_where f id (Projects st); Tasks := Tasks st |}).

(** [this.on('completeTask', ...)]; [completedAt] is the time value of the
    clock. *)
Definition completeTask (c : Clock) (taskID : string) : Handler ActionResult :=
  st ← read_db ;
  match select_one (Tasks st) taskID with
  | None =>
      mret {| success := false;
              message := "Task with ID " +:+ taskID +:+ " not found" |}
  | Some task =>
      if is_done (t_status task) then
        mret {| success := false; message := "Task is already completed" |}
      else
        update_Tasks (set_completed (now c)) taskID ;;
        mret {| success := true;
                message := "Task " +:+ dquote +:+ t_title task +:+ dquote
                           +:+ " marked as completed" |}
  end.

(** [!assignedTo || assignedTo.trim() === ''] *)
Definition no_assignee (assignedTo : field string) : bool :=
  match assignedTo with
  | Val a => negb (truthy_str (Val a)) || String.eqb (trim a) ""
  | _ => true
  end.

(** What [`${assignedTo}`] and [assignedTo: assignedTo] see of the
    argument once it has passed the test above. *)
Definition assignee (assignedTo : field string) : string :=
  match assignedTo with
  | Val a => a
  | _ => ""
  end.

(** [this.on('assignTask', ...)] *)
Definition assignTask (taskID : string) (assignedTo : field string)
  : Handler ActionResult :=
  if no_assignee assignedTo then
    mret {| success := false; message := "Assignee name cannot be empty" |}
  else
    st ← read_db ;
    match select_one (Tasks st) taskID with
    | None =>
        mret {| success := false;
                message := "Task with ID " +:+ taskID +:+ " not found" |}
    | Some task =>
        update_Tasks
          (set_assigned (assignee assignedTo)
             (if decide (t_status task = ToDo) then InProgress
              else t_status task))
          taskID ;;
        mret {| success := true;
                message := "Task " +:+ dquote +:+ t_title task +:+ dquote
                           +:+ " assigned to " +:+ assignee assignedTo |}
    end.

(** [{ success, message, remainingBudget }] *)
Record BudgetResult := {
  b_success : bool;
  b_message : string;
  b_remainingBudget : Z;
}.

(** [newBudget !== undefined ? newBudget : project.budget] *)
Definition updated_budget (newBudget : field Z) (project : Project)
  : option Z :=
  match newBudget with
  | Undefined => p_budget project
  | Null => None
  | Val b => Some b
  end.

(** [this.on('updateProjectBudget', ...)] *)
Definition updateProjectBudget (projectID : string)
    (newBudget additionalCost : field Z) : Handler BudgetResult :=
  st ← read_db ;
  match select_one (Projects st) projectID with
  | None =>
      mret {| b_success := false;
              b_message := "Project with ID " +:+ projectID +:+ " not found";
              b_remainingBudget := 0 |}
  | Some project =>
      if defined newBudget && js_lt newBudget (Val 0%Z) then
        mret {| b_success := false;
                b_message := "Budget cannot be negative";
                b_remainingBudget :=
                  js_sub (p_budget project) (p_actualCost project) |}
      else
        let updatedBudget := updated_budget newBudget project in
        let updatedCost :=
          js_add (p_actualCost project) (or_zero additionalCost) in
        let remaining := js_sub updatedBudget (Some updatedCost) in
        update_Projects (set_budget updatedBudget (Some updatedCost))
          projectID ;;
        mret {| b_success := true;
                b_message := "Budget updated for project " +:+ dquote
                             +:+ p_name project +:+ dquote;
                b_remainingBudget := remaining |}
  end.

(** [{ totalTasks, completedTasks, completionRate, overdueTasks }] *)
Record ProjectStats := {
  totalTasks : nat;
  completedTasks : nat;
  statsCompletionRate : spec_float;
  overdueTasks : nat;
}.

(** [this.on('getProjectStats', ...)] *)
Definition getProjectStats (c : Clock) (projectID : string)
  : Handler ProjectStats :=
  st ← read_db ;
  when (bool_decide (select_one (Projects st) projectID = None))
    (req_error 404 ("Project with ID " +:+ projectID +:+ " not found")) ;;
  let tasks := select_where (of_project projectID) (Tasks st) in
  let total := length tasks in
  let completed :=
    length (List.filter (fun t => is_done (t_status t)) tasks) in
  let today := todayMidnight c in
  let overdueCount :=
    length (List.filter (fun t =>
      match t_dueDate t with
      | Some d =>
          if is_done (t_status t) then false else (newDate d <? today)%Z
      | None => false
      end) tasks) in
  mret {| totalTasks := total;
          completedTasks := completed;
          statsCompletionRate := completion_rate completed total;
          overdueTasks := overdueCount |}.

(** ** The amounts as JavaScript values *)

(** A Decimal reaches the handler as a number or, where the request or
    the database gives decimals as text, as a string; [+] then joins two
    texts where it adds two numbers. The handler [updateProjectBudget]
    is given again below on such values, with the conversions of
    ECMAScript between numbers and their texts. *)

(** *** Texts of numbers *)

(** The double nearest to [n / d], ties to even. *)
Definition nearest_double (negative : bool) (n d : positive) : spec_float :=
  SFdiv 53 1024 (S754_finite negative n 0) (S754_finite false d 0).

(** The double nearest to [m * 10 ^ e]. *)
Definition decimal_double (negative : bool) (m : positive) (e : Z)
  : spec_float :=
  match e with
  | Zneg p => nearest_double negative m (10 ^ p)%positive
  | _ => binary_normalize 53 1024 (cond_Zopp negative (Zpos m * 10 ^ e)) 0
           negative
  end.

(** *** Number::toString *)

(** [r * 10 ^ j] for a ratio [r] of positive integers. *)
Definition scale10 (r : Z * Z) (j : Z) : Z * Z :=
  match j with
  | Zneg p => (r.1, r.2 * 10 ^ Zpos p)%Z
  | _ => (r.1 * 10 ^ j, r.2)%Z
  end.

(** [r < 10 ^ n] *)
Definition below_pow10 (r : Z * Z) (n : Z) : bool :=
  let t := scale10 r (- n) in (t.1 <? t.2)%Z.

(** The least [n] from [n0] on with [r < 10 ^ n]. *)
Fixpoint magnitude_from (fuel : nat) (r : Z * Z) (n0 : Z) : Z :=
  match fuel with
  | O => n0
  | S fuel' =>
      if below_pow10 r n0 then n0 else magnitude_from fuel' r (n0 + 1)
  end.

(** The [n] with [10 ^ (n - 1) <= r < 10 ^ n]. *)
Definition magnitude (r : Z * Z) : Z :=
  let bits := (Z.log2 r.1 - Z.log2 r.2)%Z in
  magnitude_from 8 r (((bits - 1) * 30103) `div` 100000 - 1)%Z.

(** The digits [s] (as an integer of [k] decimal digits) and the exponent
    [n] of the shortest decimal [s * 10 ^ (n - k)] that reads back as the
    double [x]; of two such the nearer one, of two equally near the even
    one. *)
Definition shortest_at (x : spec_float) (r : Z * Z) (n k : Z)
  : option (Z * Z) :=
  let t := scale10 r (k - n) in
  let lo := (t.1 `div` t.2)%Z in
  let rest := (t.1 `mod` t.2)%Z in
  let hi := (lo + 1)%Z in
  let up := if (hi =? 10 ^ k)%Z then (10 ^ (k - 1), n + 1)%Z else (hi, n) in
  let reads s m :=
    bool_decide (decimal_double false (Z.to_pos s) (m - k) = x) in
  let lo_ok := reads lo n in
  let up_ok := reads up.1 up.2 in
  if (rest =? 0)%Z then Some (lo, n)
  else if lo_ok && up_ok then
    match (2 * rest ?= t.2)%Z with
    | Lt => Some (lo, n)
    | Gt => Some up
    | Eq => if Z.even lo then Some (lo, n) else Some up
    end
  else if lo_ok then Some (lo, n)
  else if up_ok then Some up
  else None.

Fixpoint shortest_from (fuel : nat) (x : spec_float) (r : Z * Z) (n k : Z)
  : Z * Z * Z :=
  match fuel with
  | O => (0, n, k)%Z
  | S fuel' =>
      match shortest_at x r n k with
      | Some (s, n') => (s, n', k)
      | None => shortest_from fuel' x r n (k + 1)
      end
  end.

Definition zeros (n : Z) : string :=
  fold_right (fun _ s => "0" +:+ s) EmptyString (seq 0 (Z.to_nat n)).

Fixpoint string_take (n : nat) (s : string) : string :=
  match n, s with
  | S n', String c s' => String c (string_take n' s')
  | _, _ => EmptyString
  end.

Fixpoint string_drop (n : nat) (s : string) : string :=
  match n, s with
  | S n', String c s' => string_drop n' s'
  | _, _ => s
  end.

(** The text of a positive finite double, given its digits. *)
Definition format_digits (s n k : Z) : string :=
  let digits := pretty (Z.to_N s) in
  if (k <=? n)%Z && (n <=? 21)%Z then digits +:+ zeros (n - k)
  else if (0 <? n)%Z && (n <=? 21)%Z then
    string_take (Z.to_nat n) digits +:+ "." +:+ string_drop (Z.to_nat n) digits
  else if (-6 <? n)%Z && (n <=? 0)%Z then "0." +:+ zeros (- n) +:+ digits
  else
    let e := (n - 1)%Z in
    let exponent :=
      (if (0 <=? e)%Z then "+" else "-") +:+ pretty (Z.abs_N e) in
    if (k =? 1)%Z then digits +:+ "e" +:+ exponent
    else string_take 1 digits +:+ "." +:+ string_drop 1 digits
         +:+ "e" +:+ exponent.

(** [Number::toString(x)] in radix 10. *)
Definition NumberToString (x : spec_float) : string :=
  match x with
  | S754_nan => "NaN"
  | S754_zero _ => "0"
  | S754_infinity s => if s then "-Infinity" else "Infinity"
  | S754_finite s m e =>
      let r :=
        match e with
        | Zneg p => (Zpos m, 2 ^ Zpos p)%Z
        | _ => (Zpos m * 2 ^ e, 1)%Z
        end in
      let '(d, n, k) :=
        shortest_from 17 (S754_finite false m e) r (magnitude r) 1 in
      (if s then "-" else "") +:+ format_digits d n k
  end.

(** *** StringToNumber *)

Definition digit_in (radix : N) (c : Ascii.ascii) : option N :=
  let n := byte c in
  let v :=
    if (48 <=? n)%N && (n <=? 57)%N then Some (n - 48)%N
    else if (65 <=? n)%N && (n <=? 70)%N then Some (n - 55)%N
    else if (97 <=? n)%N && (n <=? 102)%N then Some (n - 87)%N
    else None in
  match v with
  | Some d => if (d <? radix)%N then Some d else None
  | None => None
  end.

(** The leading digits of [s]: their value after [acc], how many they are,
    and what follows them. *)
Fixpoint digits_in (radix : N) (s : string) (acc : N) (count : nat)
  : N * nat * string :=
  match s with
  | String c s' =>
      match digit_in radix c with
      | Some d => digits_in radix s' (acc * radix + d)%N (S count)
      | None => (acc, count, s)
      end
  | EmptyString => (acc, count, s)
  end.

(** [NonDecimalIntegerLiteral] after its prefix. *)
Definition non_decimal (radix : N) (s : string) : spec_float :=
  match digits_in radix s 0%N 0 with
  | (v, S _, EmptyString) => Number (Z.of_N v)
  | _ => S754_nan
  end.

(** The double of [m * 10 ^ e] for a literal: the exponent is cut off
    where the result is certainly 0 or infinite. *)
Definition literal_double (negative : bool) (m : N) (e : Z) : spec_float :=
  match m with
  | N0 => S754_zero negative
  | Npos p =>
      let magnitude := (Z.of_nat (String.length (pretty m)) + e)%Z in
      if (400 <? magnitude)%Z then S754_infinity negative
      else if (magnitude <? -400)%Z then S754_zero negative
      else decimal_double negative p e
  end.

(** [ExponentPart], optional: the exponent, or [None] when what follows
    the mantissa is no exponent part closing the literal. *)
Definition exponent_part (s : string) : option Z :=
  match s with
  | EmptyString => Some 0%Z
  | String "e"%char s1 | String "E"%char s1 =>
      let '(negative, s2) :=
        match s1 with
        | String "+"%char s2 => (false, s2)
        | String "-"%char s2 => (true, s2)
        | _ => (false, s1)
        end in
      match digits_in 10 s2 0%N 0 with
      | (v, S _, EmptyString) => Some (cond_Zopp negative (Z.of_N v))
      | _ => None
      end
  | _ => None
  end.

(** [StrUnsignedDecimalLiteral] *)
Definition unsigned_decimal (negative : bool) (s : string) : spec_float :=
  if String.eqb s "Infinity" then S754_infinity negative
  else
    let '(i, ni, s1) := digits_in 10 s 0%N 0 in
    let '(m, nf, s2) :=
      match s1 with
      | String "."%char s' =>
          let '(m, n, s2) := digits_in 10 s' i 0 in (m, n, s2)
      | _ => (i, 0, s1)
      end in
    match ni + nf, exponent_part s2 with
    | S _, Some e => literal_double negative m (e - Z.of_nat nf)
    | _, _ => S754_nan
    end.

(** [StringToNumber(s)] *)
Definition StringToNumber (s : string) : spec_float :=
  match trim s with
  | EmptyString => S754_zero false
  | String "0"%char (String "x"%char t)
  | String "0"%char (String "X"%char t) => non_decimal 16 t
  | String "0"%char (String "o"%char t)
  | String "0"%char (String "O"%char t) => non_decimal 8 t
  | String "0"%char (String "b"%char t)
  | String "0"%char (String "B"%char t) => non_decimal 2 t
  | String "+"%char t => unsigned_decimal false t
  | String "-"%char t => unsigned_decimal true t
  | t => unsigned_decimal false t
  end.

(** *** Values and operators *)

Module Js.

Inductive value :=
  | Undefined
  | Null
  | Num (x : spec_float)
  | Str (s : string).

Global Instance value_eq_dec : EqDecision value.
Proof. solve_decision. Defined.

(** [ToNumber(v)] *)
Definition ToNumber (v : value) : spec_float :=
  match v with
  | Undefined => S754_nan
  | Null => S754_zero false
  | Num x => x
  | Str s => StringToNumber s
  end.

(** [ToString(v)] *)
Definition ToString (v : value) : string :=
  match v with
  | Undefined => "undefined"
  | Null => "null"
  | Num x => NumberToString x
  | Str s => s
  end.

(** [ToBoolean(v)] *)
Definition ToBoolean (v : value) : bool :=
  match v with
  | Undefined | Null => false
  | Num (S754_zero _) | Num S754_nan => false
  | Num _ => true
  | Str s => negb (String.eqb s "")
  end.

(** [a || b] *)
Definition or (a b : value) : value := if ToBoolean a then a else b.

(** [a + b]: a text as soon as one operand is a text. *)
Definition plus (a b : value) : value :=
  match a, b with
  | Str _, _ | _, Str _ => Str (ToString a +:+ ToString b)
  | _, _ => Num (SFadd 53 1024 (ToNumber a) (ToNumber b))
  end.

(** [a - b] *)
Definition minus (a b : value) : value :=
  Num (SFsub 53 1024 (ToNumber a) (ToNumber b)).

(** [a < y] for a number [y]. *)
Definition lt (a : value) (y : spec_float) : bool := SFltb (ToNumber a) y.

(** [v !== undefined] *)
Definition defined (v : value) : bool :=
  match v with
  | Undefined => false
  | _ => true
  end.

(** The columns of a project the handler reads and writes. *)
Record Project := {
  ID : string;
  name : string;
  budget : value;
  actualCost : value;
}.

(** [{ success, message, remainingBudget }] *)
Record BudgetResult := {
  success : bool;
  message : string;
  remainingBudget : value;
}.

(** [UPDATE(Projects).set({ budget, actualCost }).where({ ID })] *)
Definition update (updatedBudget updatedCost : value) (projectID : string)
    (Projects : gmap string Project) : gmap string Project :=
  alter (fun p => {| ID := ID p; name := name p;
                     budget := updatedBudget; actualCost := updatedCost |})
    projectID Projects.

(** [this.on('updateProjectBudget', ...)]: the answer and the table
    after the call. *)
Definition updateProjectBudget (projectID : string)
    (newBudget additionalCost : value) (Projects : gmap string Project)
  : BudgetResult * gmap string Project :=
  match Projects !! projectID with
  | None =>
      ({| success := false;
          message := "Project with ID " +:+ projectID +:+ " not found";
          remainingBudget := Num (Number 0) |}, Projects)
  | Some project =>
      if defined newBudget && lt newBudget (Number 0) then
        ({| success := false;
            message := "Budget cannot be negative";
            remainingBudget := minus (budget project) (actualCost project) |},
         Projects)
      else
        let updatedBudget :=
          if defined newBudget then newBudget else budget project in
        let updatedCost :=
          plus (actualCost project) (or additionalCost (Num (Number 0))) in
        let remaining := minus updatedBudget updatedCost in
        ({| success := true;
            message := "Budget updated for project " +:+ dquote
                       +:+ name project +:+ dquote;
            remainingBudget := remaining |},
         update updatedBudget updatedCost projectID Projects)
  end.

End Js.

(** *** Whole amounts *)

(** A whole amount in the range of a Decimal(10,2) column. *)
Definition whole_amount (z : Z) : Prop := (Z.abs z < 10 ^ 8)%Z.

(** A stored amount, an argument, a row and an answer of the handler on
    integers, as the JavaScript values they stand for. *)
Definition amount (c : option Z) : Js.value :=
  match c with
  | Some z => Js.Num (Number z)
  | None => Js.Null
  end.

Definition argument (x : field Z) : Js.value :=
  match x with
  | Undefined => Js.Undefined
  | Null => Js.Null
  | Val z => Js.Num (Number z)
  end.

Definition amounts_of (p : Project) : Js.Project :=
  {| Js.ID := p_ID p; Js.name := p_name p;
     Js.budget := amount (p_budget p);
     Js.actualCost := amount (p_actualCost p) |}.

Definition answer_of (r : BudgetResult) : Js.BudgetResult :=
  {| Js.success := b_success r; Js.message := b_message r;
     Js.remainingBudget := Js.Num (Number (b_remainingBudget r)) |}.

(** ** Requests *)

(** A request with no [before] handler of this service. *)
Definition no_before : Handler unit := mret tt.

(** An action or function call. *)
Definition call {A} (on : Handler A) (st : Store) : Response A * Store :=
  dispatch no_before on st.

Section Writes.
(** The generic CREATE, UPDATE or DELETE of the framework that runs
    once the [before] handlers have passed. *)
Variable commit : Store -> Store.

Definition write (before : Handler unit) (st : Store)
  : Response unit * Store :=
  dispatch before (write_db commit) st.
End Writes.

(** ** What the validation registers *)

(** The errors and the warnings of the Projects handler, one list per
    check, in the order of the checks: the handler appends exactly these
    ([beforeWriteProjects_run] below). *)
Definition date_violation (project : ProjectData) : list (Z * string) :=
  match startDate project, endDate project with
  | Val s, Val e =>
      if (newDate e <? newDate s)%Z
      then [(400%Z, "End date must be after start date")] else []
  | _, _ => []
  end.

Definition negative_violation (x : field Z) (msg : string)
  : list (Z * string) :=
  if defined x && js_lt x (Val 0%Z) then [(400%Z, msg)] else [].

Definition project_violations (project : ProjectData) : list (Z * string) :=
  date_violation project
  ++ negative_violation (budget project) "Budget cannot be negative"
  ++ negative_violation (actualCost project) "Actual cost cannot be negative".

Definition project_advisories (project : ProjectData) : list string :=
  if truthy (budget project) && truthy (actualCost project)
     && js_gt (actualCost project) (budget project)
  then ["Actual cost exceeds budget"] else [].

Definition reference_violation (st : Store) (task : TaskData)
  : list (Z * string) :=
  match project_ID task with
  | Val id =>
      if truthy_str (Val id) then
        match Projects st !! id with
        | None => [(404%Z, "Project with ID " +:+ id +:+ " not found")]
        | Some _ => []
        end
      else []
  | _ => []
  end.

Definition task_violations (st : Store) (task : TaskData)
  : list (Z * string) :=
  negative_violation (estimatedHours task)
    "Estimated hours cannot be negative"
  ++ negative_violation (actualHours task) "Actual hours cannot be negative"
  ++ reference_violation st task.

(** The project reference is resolved alike in two stores. *)
Definition same_reference (task : TaskData) (st1 st2 : Store) : Prop :=
  forall id, project_ID task = Val id ->
    (Projects st1 !! id = None <-> Projects st2 !! id = None).

(** The errors and the warnings that a handler registers on a fresh
    request against the store [st]. *)
Definition raised {A} (h : Handler A) (st : Store) : list (Z * string) :=
  errors (h (start st)).2.

Definition warned {A} (h : Handler A) (st : Store) : list string :=
  warnings (h (start st)).2.

(** ** The completion rate of the specification *)

(** The rate as the specification words it: 0 without tasks, else
    100 * completed / total rounded to the nearest integer, a tie going
    up: floor (100 * completed / total + 1/2), computed exactly. *)
Definition exact_completion_rate (completedTasks totalTasks : nat) : Z :=
  if (0 <? totalTasks)%nat then
    ((200 * Z.of_nat completedTasks + Z.of_nat totalTasks)
       `div` (2 * Z.of_nat totalTasks))%Z
  else 0%Z.

(** ** Sample rows *)

Definition sampleProject (id : string) (b c : option Z) : Project :=
  {| p_ID := id; p_name := "Website relaunch"; p_description := None;
     p_status := Active; p_budget := b; p_actualCost := c;
     p_startDate := None; p_endDate := None |}.

Definition sampleTask (id : string) (s : TaskStatus) (due : option Date)
    (pid : option string) : Task :=
  {| t_ID := id; t_title := "Write the release notes";
     t_description := None; t_priority := Medium; t_status := s;
     t_estimatedHours := None; t_actualHours := Some 0%Z; t_dueDate := due;
     t_completedAt := None; t_assignedTo := None; t_project_ID := pid |}.

(** The project of the budget scenario, with one open and one finished
    task. *)
Definition sampleStore : Store :=
  {| Projects := {[ "P" := sampleProject "P" (Some 1000%Z) (Some 0%Z) ]};
     Tasks := {[ "T" := sampleTask "T" ToDo (Some 19737%Z) (Some "P");
                 "U" := sampleTask "U" Done None (Some "P") ]} |}.

(** The table of the budget scenario with its amounts as JavaScript
    values. *)
Definition sampleAmounts (budget actualCost : Js.value)
  : gmap string Js.Project :=
  {[ "P" := {| Js.ID := "P"; Js.name := "Website relaunch";
               Js.budget := budget; Js.actualCost := actualCost |} ]}.

(** A project with 40 tasks, the first [done] of them Done. *)
Definition fortyTasks (done : nat) : Store :=
  {| Projects := {[ "P" := sampleProject "P" (Some 1000%Z) (Some 0%Z) ]};
     Tasks :=
       list_to_map
         ((fun i : nat =>
             let id := "T" +:+ pretty i in
             (id, sampleTask id (if (i <? done)%nat then Done else ToDo)
                    None (Some "P")))
          <$> seq 0 40) |}.

(** Noon of 2024-01-15 (day 19737) in a zone five hours west of UTC. *)
Definition noonWestOfUTC : Clock :=
  {| now := 1705338000000; tzOffset := -18000000 |}.

(** The same instant on a server that runs on UTC. *)
Definition sameInstantUTC : Clock :=
  {| now := 1705338000000; tzOffset := 0 |}.

(** ** Invariants of the store *)

(** Every row is filed under its own [ID]. *)
Definition keyed (st : Store) : Prop :=
  (forall id p, Projects st !! id = Some p -> p_ID p = id) /\
  (forall id t, Tasks st !! id = Some t -> t_ID t = id).

(** No stored budget, respectively cost, is negative. *)
Definition budgets_nonneg (st : Store) : Prop :=
  forall id p b, Projects st !! id = Some p -> p_budget p = Some b ->
                 (0 <= b)%Z.

Definition costs_nonneg (st : Store) : Prop :=
  forall id p c, Projects st !! id = Some p -> p_actualCost p = Some c ->
                 (0 <= c)%Z.

(** * Properties *)

(** Runs the handlers of a request symbolically. *)
Ltac run :=
  unfold call, write, dispatch, no_before, start, update_Tasks,
    update_Projects, write_db, read_db, req_error, req_warn, when,
    select_one, update_where;
  unfold mbind, Handler_bind, mret, Handler_ret; simpl.

(** ** The store under an UPDATE by key *)

Lemma alter_hit {A} (f : A -> A) (id : string) (tbl : gmap string A) (a : A) :
  tbl !! id = Some a -> alter f id tbl !! id = Some (f a).
Proof. intros H. rewrite lookup_alter_eq, H. reflexivity. Qed.

Lemma alter_miss {A} (f : A -> A) (id id' : string) (tbl : gmap string A) :
  id <> id' -> alter f id tbl !! id' = tbl !! id'.
Proof. intros H. apply lookup_alter_ne. exact H. Qed.

(** ** updateProjectBudget *)

Lemma updateProjectBudget_not_found st projectID newBudget additionalCost :
  Projects st !! projectID = None ->
  call (updateProjectBudget projectID newBudget additionalCost) st =
    (Succeeded
       {| b_success := false;
          b_message := "Project with ID " +:+ projectID +:+ " not found";
          b_remainingBudget := 0 |} [], st).
Proof.
  intros Hnone. unfold updateProjectBudget. run. rewrite Hnone. reflexivity.
Qed.

(** [newBudget !== undefined && newBudget < 0] holds of the negative
    numbers only. *)
Lemma negative_budget_test newBudget :
  defined newBudget && js_lt newBudget (Val 0%Z) = true <->
  exists b, newBudget = Val b /\ (b < 0)%Z.
Proof.
  destruct newBudget as [| | b]; simpl.
  - split; [discriminate | intros (b & H & _); discriminate].
  - split; [discriminate | intros (b & H & _); discriminate].
  - unfold js_lt. simpl. rewrite Z.ltb_lt. split.
    + intros H. exists b. split; [reflexivity | exact H].
    + intros (b' & [= <-] & H). exact H.
Qed.

Lemma updateProjectBudget_negative st projectID project b additionalCost :
  Projects st !! projectID = Some project -> (b < 0)%Z ->
  call (updateProjectBudget projectID (Val b) additionalCost) st =
    (Succeeded
       {| b_success := false;
          b_message := "Budget cannot be negative";
          b_remainingBudget :=
            js_sub (p_budget project) (p_actualCost project) |} [], st).
Proof.
  intros Hsome Hneg. unfold updateProjectBudget. run. rewrite Hsome.
  replace (js_lt (Val b) (Val 0%Z)) with true; [reflexivity |].
  symmetry. apply Z.ltb_lt. exact Hneg.
Qed.

Lemma updateProjectBudget_ok st projectID project newBudget additionalCost :
  Projects st !! projectID = Some project ->
  (forall b, newBudget = Val b -> (0 <= b)%Z) ->
  call (updateProjectBudget projectID newBudget additionalCost) st =
    (Succeeded
       {| b_success := true;
          b_message := "Budget updated for project " +:+ dquote
                       +:+ p_name project +:+ dquote;
          b_remainingBudget :=
            js_sub (updated_budget newBudget project)
              (Some (js_add (p_actualCost project)
                       (or_zero additionalCost))) |} [],
     {| Projects :=
          alter (set_budget (updated_budget newBudget project)
                   (Some (js_add (p_actualCost project)
                            (or_zero additionalCost))))
            projectID (Projects st);
        Tasks := Tasks st |}).
Proof.
  intros Hsome Hok. unfold updateProjectBudget. run. rewrite Hsome.
  destruct (defined newBudget && js_lt newBudget (Val 0%Z)) eqn:Hneg;
    [| reflexivity].
  apply negative_budget_test in Hneg. destruct Hneg as (b & Hb & Hlt).
  specialize (Hok b Hb). lia.
Qed.

(** *** On JavaScript values *)

Lemma Js_updateProjectBudget_not_found Projects projectID newBudget
    additionalCost :
  Projects !! projectID = None ->
  Js.updateProjectBudget projectID newBudget additionalCost Projects =
    ({| Js.success := false;
        Js.message := "Project with ID " +:+ projectID +:+ " not found";
        Js.remainingBudget := Js.Num (Number 0) |}, Projects).
Proof. intros H. unfold Js.updateProjectBudget. rewrite H. reflexivity. Qed.

Lemma Js_updateProjectBudget_negative Projects projectID project newBudget
    additionalCost :
  Projects !! projectID = Some project ->
  Js.defined newBudget = true -> Js.lt newBudget (Number 0) = true ->
  Js.updateProjectBudget projectID newBudget additionalCost Projects =
    ({| Js.success := false;
        Js.message := "Budget cannot be negative";
        Js.remainingBudget :=
          Js.minus (Js.budget project) (Js.actualCost project) |}, Projects).
Proof.
  intros H Hd Hlt. unfold Js.updateProjectBudget. rewrite H, Hd, Hlt.
  reflexivity.
Qed.

(** What the call stores for the cost when the stored cost is a number
    and the additional cost arrives as a text that is not empty: the text
    of the stored number followed by the text of the argument. *)
Lemma Js_updateProjectBudget_text Projects projectID project newBudget x s :
  Projects !! projectID = Some project ->
  Js.defined newBudget && Js.lt newBudget (Number 0) = false ->
  Js.actualCost project = Js.Num x -> s <> EmptyString ->
  Js.actualCost <$>
    (Js.updateProjectBudget projectID newBudget (Js.Str s) Projects).2
      !! projectID = Some (Js.Str (NumberToString x +:+ s)).
Proof.
  intros H Hok Hc Hs. unfold Js.updateProjectBudget. rewrite H, Hok.
  cbn [snd]. unfold Js.update. rewrite lookup_alter_eq, H. cbn.
  rewrite Hc. unfold Js.or, Js.ToBoolean.
  destruct s as [| c s]; [contradiction |]. reflexivity.
Qed.

(** What it stores when both are numbers: their binary64 sum. *)
Lemma Js_updateProjectBudget_numbers Projects projectID project newBudget
    x y :
  Projects !! projectID = Some project ->
  Js.defined newBudget && Js.lt newBudget (Number 0) = false ->
  Js.actualCost project = Js.Num x ->
  Js.actualCost <$>
    (Js.updateProjectBudget projectID newBudget (Js.Num y) Projects).2
      !! projectID =
    Some (Js.Num (SFadd 53 1024 x
                    (if Js.ToBoolean (Js.Num y) then y else Number 0))).
Proof.
  intros H Hok Hc. unfold Js.updateProjectBudget. rewrite H, Hok.
  cbn [snd]. unfold Js.update. rewrite lookup_alter_eq, H. cbn.
  rewrite Hc. destruct y; reflexivity.
Qed.

(** The scenario of the specification on numbers: budget 1000 and cost 0,
    a new budget of 1200 and an additional cost of 300 leave 900 and
    store 1200 and 300. *)
Lemma Js_updateProjectBudget_scenario :
  let answer :=
    Js.updateProjectBudget "P" (Js.Num (Number 1200)) (Js.Num (Number 300))
      (sampleAmounts (Js.Num (Number 1000)) (Js.Num (Number 0))) in
  answer.1 =
    {| Js.success := true;
       Js.message := "Budget updated for project " +:+ dquote
                     +:+ "Website relaunch" +:+ dquote;
       Js.remainingBudget := Js.Num (Number 900) |} /\
  answer.2 = sampleAmounts (Js.Num (Number 1200)) (Js.Num (Number 300)).
Proof. vm_compute. split; reflexivity. Qed.

(** C1. [updateProjectBudget] with a stored budget of 1000 and a stored
    cost of 100, called with a new budget of 1200 and the additional cost
    300 as the text of that decimal: [project.actualCost + (additionalCost
    || 0)] joins the two texts, so the call stores the cost 100300 where
    the sum is 400, and answers the remainder -99100 where budget minus
    cost is 800. *)
Theorem updateProjectBudget_joins_texts :
  let answer :=
    Js.updateProjectBudget "P" (Js.Num (Number 1200)) (Js.Str "300")
      (sampleAmounts (Js.Num (Number 1000)) (Js.Num (Number 100))) in
  answer.1 =
    {| Js.success := true;
       Js.message := "Budget updated for project " +:+ dquote
                     +:+ "Website relaunch" +:+ dquote;
       Js.remainingBudget := Js.Num (Number (-99100)) |} /\
  answer.2 = sampleAmounts (Js.Num (Number 1200)) (Js.Str "100300") /\
  Js.ToNumber (Js.Str "100300") = Number 100300 /\
  Js.ToNumber (Js.Str "100300") <> Number (100 + 300) /\
  Js.remainingBudget answer.1 <> Js.Num (Number (1200 - (100 + 300))).
Proof. vm_compute. repeat split; discriminate. Qed.

(** The same call with both arguments as texts, and with the stored cost
    as a text and the argument as a number. *)
Lemma updateProjectBudget_joins_texts_all :
  (let answer :=
     Js.updateProjectBudget "P" (Js.Str "1200") (Js.Str "300")
       (sampleAmounts (Js.Num (Number 1000)) (Js.Num (Number 100))) in
   Js.remainingBudget answer.1 = Js.Num (Number (-99100)) /\
   answer.2 = sampleAmounts (Js.Str "1200") (Js.Str "100300")) /\
  (let answer :=
     Js.updateProjectBudget "P" (Js.Num (Number 1200)) (Js.Num (Number 300))
       (sampleAmounts (Js.Str "1000.00") (Js.Str "100.00")) in
   Js.ToString (Js.remainingBudget answer.1) = "1099.997" /\
   answer.2 = sampleAmounts (Js.Num (Number 1200)) (Js.Str "100.00300")).
Proof. vm_compute. repeat split. Qed.

(** On numbers the sum is the binary64 one: a budget of 0.30 and a cost of
    0.10 with an additional cost of 0.20 store 0.30000000000000004 and
    leave -5.551115123125783e-17, not 0. *)
Lemma updateProjectBudget_binary64 :
  let tenths n := Js.Num (decimal_double false n (-1)) in
  let answer :=
    Js.updateProjectBudget "P" Js.Undefined (tenths 2%positive)
      (sampleAmounts (tenths 3%positive) (tenths 1%positive)) in
  Js.ToString (Js.remainingBudget answer.1) = "-5.551115123125783e-17" /\
  Js.ToString <$> (Js.actualCost <$> answer.2 !! "P") =
    Some "0.30000000000000004".
Proof. vm_compute. split; reflexivity. Qed.

(** ** completeTask *)

Lemma completeTask_not_found c st taskID :
  Tasks st !! taskID = None ->
  call (completeTask c taskID) st =
    (Succeeded
       {| success := false;
          message := "Task with ID " +:+ taskID +:+ " not found" |} [], st).
Proof. intros H. unfold completeTask. run. rewrite H. reflexivity. Qed.

Lemma completeTask_already_done c st taskID task :
  Tasks st !! taskID = Some task -> t_status task = Done ->
  call (completeTask c taskID) st =
    (Succeeded
       {| success := false; message := "Task is already completed" |} [],
     st).
Proof.
  intros H Hdone. unfold completeTask. run. rewrite H, Hdone. reflexivity.
Qed.

Lemma completeTask_ok c st taskID task :
  Tasks st !! taskID = Some task -> t_status task <> Done ->
  call (completeTask c taskID) st =
    (Succeeded
       {| success := true;
          message := "Task " +:+ dquote +:+ t_title task +:+ dquote
                     +:+ " marked as completed" |} [],
     {| Projects := Projects st;
        Tasks := alter (set_completed (now c)) taskID (Tasks st) |}).
Proof.
  intros H Hnot. unfold completeTask. run. rewrite H.
  destruct (t_status task); try reflexivity. contradiction.
Qed.

(** C2. [completeTask]: a missing task gives [{success: false}] with the
    not-found message; a task that is already Done gives the
    already-completed failure and leaves the store as it was; any other
    task is persisted with status Done and [completedAt] the current time,
    nothing else in the store changes, the payload is a success whose
    message quotes the title, and a second call finds the task Done and
    changes nothing. *)
Theorem completeTask_spec c st taskID :
  (Tasks st !! taskID = None ->
   call (completeTask c taskID) st =
     (Succeeded
        {| success := false;
           message := "Task with ID " +:+ taskID +:+ " not found" |} [],
      st)) /\
  (forall task,
     Tasks st !! taskID = Some task -> t_status task = Done ->
     call (completeTask c taskID) st =
       (Succeeded
          {| success := false; message := "Task is already completed" |} [],
        st)) /\
  (forall task,
     Tasks st !! taskID = Some task -> t_status task <> Done ->
     exists st' task',
       call (completeTask c taskID) st =
         (Succeeded
            {| success := true;
               message := "Task " +:+ dquote +:+ t_title task +:+ dquote
                          +:+ " marked as completed" |} [], st') /\
       Tasks st' !! taskID = Some task' /\
       t_status task' = Done /\
       t_completedAt task' = Some (now c) /\
       t_title task' = t_title task /\
       t_assignedTo task' = t_assignedTo task /\
       t_dueDate task' = t_dueDate task /\
       t_project_ID task' = t_project_ID task /\
       (forall id, id <> taskID -> Tasks st' !! id = Tasks st !! id) /\
       Projects st' = Projects st /\
       forall c',
         call (completeTask c' taskID) st' =
           (Succeeded
              {| success := false;
                 message := "Task is already completed" |} [], st')).
Proof.
  split; [| split].
  - apply completeTask_not_found.
  - apply completeTask_already_done.
  - intros task H Hnot.
    eexists _, (set_completed (now c) task).
    split; [apply completeTask_ok; assumption |]. simpl.
    assert (Hnew : alter (set_completed (now c)) taskID (Tasks st) !! taskID
                   = Some (set_completed (now c) task))
      by (apply alter_hit; exact H).
    repeat (split; [first [exact Hnew | reflexivity] |]).
    split; [intros id Hne; apply alter_miss; congruence |].
    split; [reflexivity |].
    intros c'.
    apply completeTask_already_done with (task := set_completed (now c) task);
      [exact Hnew | reflexivity].
Qed.

(** ** trim *)

Lemma trimStart_white_space w s :
  w ∈ white_space_characters -> trimStart (w +:+ s) = trimStart s.
Proof.
  intros Hw. unfold white_space_characters in Hw. simpl in Hw.
  repeat (apply elem_of_cons in Hw as [-> | Hw]; [reflexivity |]).
  apply elem_of_nil in Hw. contradiction.
Qed.

Lemma byte_eq c n : byte c = n -> c = Ascii.ascii_of_N n.
Proof. intros <-. unfold byte. symmetry. apply Ascii.ascii_N_embedding. Qed.

Lemma is_white_space_elem cp :
  is_white_space cp = true -> cp ∈ white_space_code_points.
Proof. apply bool_decide_eq_true_1. Qed.

Ltac white_space_cases H :=
  apply is_white_space_elem in H; unfold white_space_code_points in H;
  repeat (apply elem_of_cons in H as [H | H]; [try lia |]);
  try (apply elem_of_nil in H; contradiction).

Lemma one_byte_white_space c :
  (byte c < 128)%N -> is_white_space (byte c) = true ->
  String c EmptyString ∈ white_space_characters.
Proof.
  intros Hlt Hws. apply is_white_space_elem in Hws.
  unfold white_space_code_points in Hws.
  repeat (apply elem_of_cons in Hws as [Hws | Hws];
          [try lia; apply byte_eq in Hws; subst c;
           unfold white_space_characters; simpl; set_solver |]).
  apply elem_of_nil in Hws. contradiction.
Qed.

Lemma two_bytes_white_space c1 c2 cp :
  two_bytes (byte c1) (byte c2) = Some cp -> is_white_space cp = true ->
  String c1 (String c2 EmptyString) ∈ white_space_characters.
Proof.
  unfold two_bytes, continuation. intros Hcp Hws.
  destruct ((194 <=? byte c1)%N && (byte c1 <=? 223)%N
            && ((128 <=? byte c2)%N && (byte c2 <=? 191)%N)) eqn:Hr;
    [| discriminate].
  injection Hcp as <-.
  apply andb_true_iff in Hr as [Hr Hr2]. apply andb_true_iff in Hr as [H1 H2].
  apply andb_true_iff in Hr2 as [H3 H4].
  apply N.leb_le in H1, H2, H3, H4.
  apply is_white_space_elem in Hws. unfold white_space_code_points in Hws.
  repeat (apply elem_of_cons in Hws as [Hws | Hws]; [try lia |]).
  - assert (byte c1 = 194%N /\ byte c2 = 160%N) as [E1 E2] by lia.
    apply byte_eq in E1, E2. subst. unfold white_space_characters. simpl.
    set_solver.
  - apply elem_of_nil in Hws. contradiction.
Qed.

Lemma three_bytes_white_space c1 c2 c3 cp :
  three_bytes (byte c1) (byte c2) (byte c3) = Some cp ->
  is_white_space cp = true ->
  String c1 (String c2 (String c3 EmptyString)) ∈ white_space_characters.
Proof.
  unfold three_bytes, continuation. intros Hcp Hws.
  destruct ((224 <=? byte c1)%N && (byte c1 <=? 239)%N
            && ((128 <=? byte c2)%N && (byte c2 <=? 191)%N)
            && ((128 <=? byte c3)%N && (byte c3 <=? 191)%N)
            && (2048 <=? _)%N) eqn:Hr; [| discriminate].
  injection Hcp as <-.
  apply andb_true_iff in Hr as [Hr H7].
  apply andb_true_iff in Hr as [Hr Hr3].
  apply andb_true_iff in Hr as [Hr Hr2].
  apply andb_true_iff in Hr as [H1 H2].
  apply andb_true_iff in Hr2 as [H3 H4].
  apply andb_true_iff in Hr3 as [H5 H6].
  apply N.leb_le in H1, H2, H3, H4, H5, H6, H7.
  apply is_white_space_elem in Hws. unfold white_space_code_points in Hws.
  repeat (apply elem_of_cons in Hws as [Hws | Hws];
          [try lia;
           match type of Hws with
           | _ = ?n =>
               let q1 := eval vm_compute in (224 + n / 4096)%N in
               let q2 := eval vm_compute in (128 + (n / 64) mod 64)%N in
               let q3 := eval vm_compute in (128 + n mod 64)%N in
               assert (byte c1 = q1 /\ byte c2 = q2 /\ byte c3 = q3)
                 as (E1 & E2 & E3) by lia;
               apply byte_eq in E1, E2, E3; subst;
               unfold white_space_characters; simpl; set_solver
           end |]).
  apply elem_of_nil in Hws. contradiction.
Qed.

Lemma string_app_empty_r s : s +:+ EmptyString = s.
Proof.
  induction s as [| c s IH]; [reflexivity |].
  change (String c (s +:+ EmptyString) = String c s). rewrite IH. reflexivity.
Qed.

Lemma string_app_cons c s t : String c s +:+ t = String c (s +:+ t).
Proof. reflexivity. Qed.

Lemma string_app_empty_l t : EmptyString +:+ t = t.
Proof. reflexivity. Qed.

Lemma Blank_one w : w ∈ white_space_characters -> Blank w.
Proof.
  intros Hw. rewrite <- (string_app_empty_r w).
  apply Blank_more; [exact Hw | apply Blank_empty].
Qed.

(** What [trimStart] drops is white space, and what it leaves does not
    start with any. *)
Lemma trimStart_split s :
  exists p, Blank p /\ s = p +:+ trimStart s /\
            trimStart (trimStart s) = trimStart s.
Proof.
  remember (String.length s) as n eqn:Hn.
  revert s Hn. induction n as [n IH] using lt_wf_ind. intros s Hn.
  destruct s as [| c1 s1]; [exists EmptyString; repeat split; constructor |].
  simpl trimStart at 1 2 4.
  destruct (byte c1 <? 128)%N eqn:H1.
  - destruct (is_white_space (byte c1)) eqn:Hws.
    + destruct (IH (String.length s1) ltac:(simpl in Hn; lia) s1 eq_refl)
        as (p & Hp & Hs & Hi).
      exists (String c1 EmptyString +:+ p). split; [| split].
      * apply Blank_more; [| exact Hp].
        apply one_byte_white_space; [apply N.ltb_lt; exact H1 | exact Hws].
      * rewrite !string_app_cons, string_app_empty_l. f_equal. exact Hs.
      * exact Hi.
    + exists EmptyString. split; [constructor |]. split; [reflexivity |].
      simpl. rewrite H1, Hws. reflexivity.
  - destruct s1 as [| c2 s2].
    { exists EmptyString. split; [constructor |]. split; [reflexivity |].
      simpl. rewrite H1. reflexivity. }
    destruct (two_bytes (byte c1) (byte c2)) as [cp |] eqn:H2.
    + destruct (is_white_space cp) eqn:Hws.
      * destruct (IH (String.length s2) ltac:(simpl in Hn; lia) s2 eq_refl)
          as (p & Hp & Hs & Hi).
        exists (String c1 (String c2 EmptyString) +:+ p). split; [| split].
        -- apply Blank_more; [| exact Hp].
           eapply two_bytes_white_space; eassumption.
        -- rewrite !string_app_cons, string_app_empty_l. do 2 f_equal.
           exact Hs.
        -- exact Hi.
      * exists EmptyString. split; [constructor |]. split; [reflexivity |].
        simpl. rewrite H1, H2, Hws. reflexivity.
    + destruct s2 as [| c3 s3].
      { exists EmptyString. split; [constructor |]. split; [reflexivity |].
        simpl. rewrite H1, H2. reflexivity. }
      destruct (three_bytes (byte c1) (byte c2) (byte c3)) as [cp |] eqn:H3.
      * destruct (is_white_space cp) eqn:Hws.
        -- destruct (IH (String.length s3) ltac:(simpl in Hn; lia) s3 eq_refl)
             as (p & Hp & Hs & Hi).
           exists (String c1 (String c2 (String c3 EmptyString)) +:+ p).
           split; [| split].
           ++ apply Blank_more; [| exact Hp].
              eapply three_bytes_white_space; eassumption.
           ++ rewrite !string_app_cons, string_app_empty_l. do 3 f_equal.
              exact Hs.
           ++ exact Hi.
        -- exists EmptyString. split; [constructor |].
           split; [reflexivity |]. simpl. rewrite H1, H2, H3, Hws.
           reflexivity.
      * exists EmptyString. split; [constructor |]. split; [reflexivity |].
        simpl. rewrite H1, H2, H3. reflexivity.
Qed.

Lemma trimStart_Blank s : Blank s -> trimStart s = EmptyString.
Proof.
  induction 1 as [| w s Hw _ IH]; [reflexivity |].
  rewrite trimStart_white_space by exact Hw. exact IH.
Qed.

Lemma Blank_trimStart s : trimStart s = EmptyString <-> Blank s.
Proof.
  split; [| apply trimStart_Blank].
  intros H. destruct (trimStart_split s) as (p & Hp & Hs & _).
  rewrite H, string_app_empty_r in Hs. subst s. exact Hp.
Qed.

Lemma trimEnd_cons c s :
  trimEnd (String c s) =
    if String.eqb (trimStart (String c s)) EmptyString then EmptyString
    else String c (trimEnd s).
Proof. reflexivity. Qed.

Lemma trimEnd_empty s :
  trimEnd s = EmptyString <-> trimStart s = EmptyString.
Proof.
  destruct s as [| c s']; [split; reflexivity |]. rewrite trimEnd_cons.
  destruct (String.eqb_spec (trimStart (String c s')) EmptyString) as [E | E].
  - split; [intros _; exact E | reflexivity].
  - split; [discriminate | intros H; contradiction].
Qed.

(** [s.trim() === ''] exactly when [s] is made of white space only. *)
Lemma trim_empty s : trim s = EmptyString <-> Blank s.
Proof.
  unfold trim. rewrite trimEnd_empty.
  destruct (trimStart_split s) as (_ & _ & _ & ->). apply Blank_trimStart.
Qed.

(** The test of [assignTask] turns down exactly the blank strings. *)
Lemma no_assignee_Val a : no_assignee (Val a) = true <-> Blank a.
Proof.
  unfold no_assignee, truthy_str. rewrite negb_involutive.
  rewrite orb_true_iff, <- trim_empty. split.
  - intros [H | H].
    + apply String.eqb_eq in H. subst a. reflexivity.
    + apply String.eqb_eq in H. exact H.
  - intros H. right. apply String.eqb_eq. exact H.
Qed.

Lemma no_assignee_not_Blank a : ~ Blank a -> no_assignee (Val a) = false.
Proof.
  intros H. destruct (no_assignee (Val a)) eqn:E; [| reflexivity].
  apply no_assignee_Val in E. contradiction.
Qed.

(** ** assignTask *)

Lemma assignTask_no_assignee st taskID assignedTo :
  no_assignee assignedTo = true ->
  call (assignTask taskID assignedTo) st =
    (Succeeded
       {| success := false; message := "Assignee name cannot be empty" |} [],
     st).
Proof. intros H. unfold assignTask. rewrite H. reflexivity. Qed.

Lemma assignTask_not_found st taskID assignedTo :
  no_assignee assignedTo = false -> Tasks st !! taskID = None ->
  call (assignTask taskID assignedTo) st =
    (Succeeded
       {| success := false;
          message := "Task with ID " +:+ taskID +:+ " not found" |} [], st).
Proof.
  intros Ha H. unfold assignTask. rewrite Ha. run. rewrite H. reflexivity.
Qed.

Lemma assignTask_ok st taskID assignedTo task :
  no_assignee assignedTo = false -> Tasks st !! taskID = Some task ->
  call (assignTask taskID assignedTo) st =
    (Succeeded
       {| success := true;
          message := "Task " +:+ dquote +:+ t_title task +:+ dquote
                     +:+ " assigned to " +:+ assignee assignedTo |} [],
     {| Projects := Projects st;
        Tasks :=
          alter (set_assigned (assignee assignedTo)
                   (if decide (t_status task = ToDo) then InProgress
                    else t_status task)) taskID (Tasks st) |}).
Proof.
  intros Ha H. unfold assignTask. rewrite Ha. run. rewrite H. reflexivity.
Qed.

(** C3. [assignTask]: an assignee that is missing, empty or made of white
    space only gives the cannot-be-empty failure and leaves the store as
    it was; otherwise a missing task gives the not-found failure payload;
    otherwise the task is persisted with the assignee, its status moved
    from ToDo to InProgress and left alone if it was anything else,
    nothing else in the store changes, and the success message names the
    title and the assignee. *)
Theorem assignTask_spec st taskID :
  (forall assignedTo,
     match assignedTo with
     | Val a => Blank a
     | _ => True
     end ->
     call (assignTask taskID assignedTo) st =
       (Succeeded
          {| success := false;
             message := "Assignee name cannot be empty" |} [], st)) /\
  (forall a,
     ~ Blank a -> Tasks st !! taskID = None ->
     call (assignTask taskID (Val a)) st =
       (Succeeded
          {| success := false;
             message := "Task with ID " +:+ taskID +:+ " not found" |} [],
        st)) /\
  (forall a task,
     ~ Blank a -> Tasks st !! taskID = Some task ->
     exists st' task',
       call (assignTask taskID (Val a)) st =
         (Succeeded
            {| success := true;
               message := "Task " +:+ dquote +:+ t_title task +:+ dquote
                          +:+ " assigned to " +:+ a |} [], st') /\
       Tasks st' !! taskID = Some task' /\
       t_assignedTo task' = Some a /\
       (t_status task = ToDo -> t_status task' = InProgress) /\
       (t_status task <> ToDo -> t_status task' = t_status task) /\
       t_title task' = t_title task /\
       t_completedAt task' = t_completedAt task /\
       t_dueDate task' = t_dueDate task /\
       t_project_ID task' = t_project_ID task /\
       (forall id, id <> taskID -> Tasks st' !! id = Tasks st !! id) /\
       Projects st' = Projects st).
Proof.
  split; [| split].
  - intros assignedTo Hblank. apply assignTask_no_assignee.
    destruct assignedTo as [| | a]; try reflexivity.
    apply no_assignee_Val. exact Hblank.
  - intros a Ha H. apply assignTask_not_found; [| exact H].
    apply no_assignee_not_Blank. exact Ha.
  - intros a task Ha H. eexists _, _.
    split.
    { apply assignTask_ok; [| exact H]. apply no_assignee_not_Blank.
      exact Ha. }
    simpl.
    split; [apply alter_hit; exact H |]. simpl.
    split; [reflexivity |].
    split; [intros Hs; destruct (decide (t_status task = ToDo)); [reflexivity | contradiction] |].
    split; [intros Hs; destruct (decide (t_status task = ToDo)); [contradiction | reflexivity] |].
    repeat (split; [reflexivity |]).
    split; [| reflexivity].
    intros id Hne. apply alter_miss. congruence.
Qed.

(** ** getProjectStats *)

(** C4. [getProjectStats] on a project that does not exist fails with the
    single error 404 and no payload, whatever the tasks of the store,
    whereas [updateProjectBudget], [completeTask] and [assignTask] answer a
    missing entity with a [success: false] payload and no error. *)
Theorem getProjectStats_not_found c st projectID :
  Projects st !! projectID = None ->
  call (getProjectStats c projectID) st =
    (Failed [(404%Z, "Project with ID " +:+ projectID +:+ " not found")],
     st) /\
  (forall newBudget additionalCost, exists r,
     call (updateProjectBudget projectID newBudget additionalCost) st =
       (Succeeded r [], st) /\ b_success r = false) /\
  (forall c' taskID,
     Tasks st !! taskID = None ->
     (exists r,
        call (completeTask c' taskID) st = (Succeeded r [], st) /\
        success r = false) /\
     (forall assignedTo, exists r,
        call (assignTask taskID assignedTo) st = (Succeeded r [], st) /\
        success r = false)).
Proof.
  intros Hnone. split; [| split].
  - unfold getProjectStats. run. rewrite Hnone. reflexivity.
  - intros newBudget additionalCost. eexists. split.
    + apply updateProjectBudget_not_found. exact Hnone.
    + reflexivity.
  - intros c' taskID Htask. split.
    + eexists. split; [apply completeTask_not_found; exact Htask |].
      reflexivity.
    + intros assignedTo. destruct (no_assignee assignedTo) eqn:Ha.
      * eexists. split; [apply assignTask_no_assignee; exact Ha |].
        reflexivity.
      * eexists. split; [apply assignTask_not_found; assumption |].
        reflexivity.
Qed.

(** ** Validation before a write *)

Lemma newDate_lt (d1 d2 : Date) : (newDate d1 <? newDate d2)%Z = (d1 <? d2)%Z.
Proof.
  unfold newDate, msPerDay.
  destruct (Z.ltb_spec d1 d2); [apply Z.ltb_lt | apply Z.ltb_ge]; lia.
Qed.

(** A check that registers the errors [es] when [c] holds. *)
Lemma when_error_run (c : bool) (code : Z) (msg : string) (r : Req) :
  when c (req_error code msg) r =
    (tt, {| db := db r;
            errors := errors r ++ (if c then [(code, msg)] else []);
            warnings := warnings r |}).
Proof.
  destruct c; run; [reflexivity |].
  rewrite app_nil_r. destruct r; reflexivity.
Qed.

Lemma when_warn_run (c : bool) (msg : string) (r : Req) :
  when c (req_warn msg) r =
    (tt, {| db := db r; errors := errors r;
            warnings := warnings r ++ (if c then [msg] else []) |}).
Proof.
  destruct c; run; [reflexivity |].
  rewrite app_nil_r. destruct r; reflexivity.
Qed.

(** The Projects handler reads nothing of the store and appends the
    violations and advisories of the payload. *)
Lemma beforeWriteProjects_run project r :
  beforeWriteProjects project r =
    (tt, {| db := db r;
            errors := errors r ++ project_violations project;
            warnings := warnings r ++ project_advisories project |}).
Proof.
  unfold beforeWriteProjects, project_violations, project_advisories,
    date_violation, negative_violation.
  unfold mbind, Handler_bind.
  assert (Hdate :
    match startDate project, endDate project with
    | Val s, Val e =>
        when (newDate e <? newDate s)%Z
          (req_error 400 "End date must be after start date")
    | _, _ => mret tt
    end r =
    (tt, {| db := db r;
            errors := errors r ++
              match startDate project, endDate project with
              | Val s, Val e =>
                  if (newDate e <? newDate s)%Z
                  then [(400%Z, "End date must be after start date")]
                  else []
              | _, _ => []
              end;
            warnings := warnings r |})).
  { destruct (startDate project), (endDate project);
      try (unfold mret, Handler_ret; rewrite app_nil_r; destruct r;
           reflexivity).
    apply when_error_run. }
  rewrite Hdate. rewrite !when_error_run, when_warn_run. simpl.
  rewrite <- !app_assoc. reflexivity.
Qed.

(** The Tasks handler looks at the store only to resolve the project
    reference of the payload. *)
Lemma beforeWriteTasks_run task r :
  beforeWriteTasks task r =
    (tt, {| db := db r;
            errors := errors r ++ task_violations (db r) task;
            warnings := warnings r |}).
Proof.
  unfold beforeWriteTasks, task_violations, reference_violation,
    negative_violation.
  unfold mbind, Handler_bind. rewrite !when_error_run. simpl.
  rewrite <- !app_assoc.
  destruct (project_ID task) as [| | id];
    try (unfold mret, Handler_ret; rewrite !app_nil_r; reflexivity).
  destruct (negb (String.eqb id ""));
    [| unfold mret, Handler_ret; rewrite !app_nil_r; reflexivity].
  unfold read_db, select_one. simpl.
  destruct (Projects (db r) !! id).
  - unfold mret, Handler_ret. rewrite !app_nil_r. reflexivity.
  - unfold req_error. simpl. rewrite <- !app_assoc. reflexivity.
Qed.

Section WriteRequests.
Variable commit : Store -> Store.

(** A write goes through exactly when its [before] handler registered
    no error. *)
Lemma write_Projects_run project st :
  write commit (beforeWriteProjects project) st =
    match project_violations project with
    | [] => (Succeeded tt (project_advisories project), commit st)
    | errs => (Failed errs, st)
    end.
Proof.
  unfold write, dispatch. rewrite beforeWriteProjects_run. simpl.
  destruct (project_violations project); reflexivity.
Qed.

Lemma write_Tasks_run task st :
  write commit (beforeWriteTasks task) st =
    match task_violations st task with
    | [] => (Succeeded tt [], commit st)
    | errs => (Failed errs, st)
    end.
Proof.
  unfold write, dispatch. rewrite beforeWriteTasks_run. simpl.
  destruct (task_violations st task); reflexivity.
Qed.
End WriteRequests.

Lemma negative_violation_400 x msg :
  Forall (fun err : Z * string => err.1 = 400%Z) (negative_violation x msg).
Proof.
  unfold negative_violation.
  destruct (defined x && js_lt x (Val 0%Z)); repeat constructor.
Qed.

Lemma date_violation_400 project :
  Forall (fun err : Z * string => err.1 = 400%Z) (date_violation project).
Proof.
  unfold date_violation.
  destruct (startDate project), (endDate project); try constructor.
  destruct (newDate a0 <? newDate a)%Z; repeat constructor.
Qed.

(** Every error of the Projects handler carries the status 400. *)
Lemma project_violations_400 project :
  Forall (fun err : Z * string => err.1 = 400%Z) (project_violations project).
Proof.
  unfold project_violations.
  repeat apply Forall_app_2;
    auto using date_violation_400, negative_violation_400.
Qed.

Lemma negative_violation_dates x msg :
  (400%Z, "End date must be after start date") ∈ negative_violation x msg ->
  msg = "End date must be after start date".
Proof.
  unfold negative_violation.
  destruct (defined x && js_lt x (Val 0%Z)); intros H.
  - apply list_elem_of_singleton in H. congruence.
  - apply elem_of_nil in H. contradiction.
Qed.

Lemma negative_violation_none x msg :
  js_lt x (Val 0%Z) = false -> negative_violation x msg = [].
Proof.
  intros H. unfold negative_violation. rewrite H, andb_false_r. reflexivity.
Qed.

(** C7. A Project write whose payload carries both dates with the end
    date strictly before the start date is rejected with status 400, the
    date error among its errors, and the store is left as it was; with
    the end date on or after the start date (equal dates included) the
    date rule raises nothing, and the write is committed unless the budget
    or the cost is negative. *)
Theorem project_dates_validated (commit : Store -> Store) st project s e :
  startDate project = Val s -> endDate project = Val e ->
  ((e < s)%Z ->
   rejected_with 400 (write commit (beforeWriteProjects project) st).1 /\
   (exists errs,
      (write commit (beforeWriteProjects project) st).1 = Failed errs /\
      (400%Z, "End date must be after start date") ∈ errs) /\
   (write commit (beforeWriteProjects project) st).2 = st) /\
  ((s <= e)%Z ->
   (forall errs,
      (write commit (beforeWriteProjects project) st).1 = Failed errs ->
      (400%Z, "End date must be after start date") ∉ errs) /\
   (js_lt (budget project) (Val 0%Z) = false ->
    js_lt (actualCost project) (Val 0%Z) = false ->
    exists warns,
      write commit (beforeWriteProjects project) st =
        (Succeeded tt warns, commit st))).
Proof.
  intros Hs He. rewrite write_Projects_run.
  pose proof (project_violations_400 project) as H400.
  unfold project_violations, date_violation in *. rewrite Hs, He in *.
  rewrite newDate_lt in *. split.
  - intros Hlt. apply Z.ltb_lt in Hlt. rewrite Hlt in *. simpl.
    split; [| split].
    + eexists. split; [reflexivity |]. split; [discriminate | exact H400].
    + eexists. split; [reflexivity |]. apply list_elem_of_here.
    + reflexivity.
  - intros Hle. apply Z.ltb_ge in Hle. rewrite Hle in *. simpl. split.
    + intros errs Hfail Hin.
      destruct (negative_violation (budget project) _ ++ _) as [| err l]
        eqn:Hv; simpl in Hfail; [discriminate |].
      injection Hfail as <-. rewrite <- Hv in Hin.
      apply elem_of_app in Hin.
      destruct Hin as [Hin | Hin];
        apply negative_violation_dates in Hin; discriminate.
    + intros Hb Hc. rewrite !negative_violation_none by assumption.
      simpl. eexists. reflexivity.
Qed.

(** ** Counting rows *)

Lemma filter_length_snd {A} (p : A -> bool) (l : list (string * A)) :
  length (List.filter p (snd <$> l)) =
    length (filter (fun kv : string * A => p kv.2 = true) l).
Proof.
  induction l as [| kv l IH]; [reflexivity |].
  rewrite filter_cons. simpl. destruct (decide (p kv.2 = true)) as [Hp | Hp].
  - rewrite Hp. simpl. f_equal. exact IH.
  - apply not_true_is_false in Hp. rewrite Hp. exact IH.
Qed.

(** [SELECT.from(T).where(p)] has as many rows as the table has entries
    that satisfy [p]. *)
Lemma select_where_count {A} (p : A -> bool) (tbl : gmap string A) :
  length (select_where p tbl) =
    size (filter (fun kv : string * A => p kv.2 = true) tbl).
Proof.
  unfold select_where. rewrite filter_length_snd, map_filter_alt.
  rewrite map_size_list_to_map; [reflexivity |].
  eapply sublist_NoDup; [apply (NoDup_fst_map_to_list tbl) |].
  apply fmap_sublist, sublist_filter.
Qed.

Lemma active_of_spec projectID t :
  active_of projectID t = true <->
  t_project_ID t = Some projectID /\ t_status t <> Done.
Proof.
  unfold active_of, of_project. rewrite andb_true_iff, negb_true_iff.
  destruct (t_project_ID t) as [p |].
  - rewrite String.eqb_eq. split.
    + intros [-> Hs]. split; [reflexivity |]. intros Hd.
      rewrite Hd in Hs. discriminate.
    + intros [[= ->] Hs]. split; [reflexivity |].
      destruct (t_status t); try reflexivity. contradiction.
  - split; [intros [? _]; discriminate | intros [? _]; discriminate].
Qed.

Lemma active_count st projectID :
  length (select_where (active_of projectID) (Tasks st)) =
    size (filter (fun kv : string * Task =>
                    t_project_ID kv.2 = Some projectID /\
                    t_status kv.2 <> Done) (Tasks st)).
Proof.
  rewrite select_where_count. f_equal.
  apply map_filter_ext. intros id t _. simpl. apply active_of_spec.
Qed.

(** ** Deleting a project *)

Lemma beforeDeleteProjects_run (commit : Store -> Store) st projectID :
  write commit (beforeDeleteProjects projectID) st =
    let n := length (select_where (active_of projectID) (Tasks st)) in
    match n with
    | O => (Succeeded tt [], commit st)
    | S _ =>
        (Failed
           [(400%Z,
             "Cannot delete project with " +:+ pretty n
             +:+ " active task(s). Complete or reassign them first.")], st)
    end.
Proof.
  unfold beforeDeleteProjects. run.
  destruct (length (select_where (active_of projectID) (Tasks st)));
    reflexivity.
Qed.

(** C9. With [blocking] the tasks of the store that reference the project
    and are not Done: if there is one, the DELETE is rejected with the
    single error 400 whose message carries the number of blocking tasks,
    and the store is left as it was; if every task of the project is Done,
    or it has none, the handler raises nothing and the DELETE is
    committed. *)
Theorem delete_blocked_by_active_tasks (commit : Store -> Store) st
    projectID :
  let blocking :=
    filter (fun kv : string * Task =>
              t_project_ID kv.2 = Some projectID /\ t_status kv.2 <> Done)
      (Tasks st) in
  ((exists id t, Tasks st !! id = Some t /\
                 t_project_ID t = Some projectID /\ t_status t <> Done) ->
   write commit (beforeDeleteProjects projectID) st =
     (Failed
        [(400%Z,
          "Cannot delete project with " +:+ pretty (size blocking)
          +:+ " active task(s). Complete or reassign them first.")], st)) /\
  ((forall id t, Tasks st !! id = Some t ->
                 t_project_ID t = Some projectID -> t_status t = Done) ->
   write commit (beforeDeleteProjects projectID) st =
     (Succeeded tt [], commit st)).
Proof.
  intros blocking. rewrite beforeDeleteProjects_run, active_count.
  fold blocking. simpl. split.
  - intros (id & t & Hl & Hp & Hs).
    assert (Hne : size blocking <> 0).
    { apply map_size_non_empty_iff. intros Hempty.
      assert (Hin : blocking !! id = Some t).
      { apply map_lookup_filter_Some. split; [exact Hl | split; assumption]. }
      rewrite Hempty in Hin. rewrite lookup_empty in Hin. discriminate. }
    destruct (size blocking); [contradiction | reflexivity].
  - intros Hall.
    assert (Hz : size blocking = 0).
    { apply map_size_empty_iff. apply map_empty_filter_2.
      intros id t Hl [Hp Hs]. simpl in *. apply Hs. eapply Hall; eassumption. }
    rewrite Hz. reflexivity.
Qed.

(** ** Validation looks at the payload *)

Lemma raised_Projects project st :
  raised (beforeWriteProjects project) st = project_violations project.
Proof. unfold raised. rewrite beforeWriteProjects_run. reflexivity. Qed.

Lemma warned_Projects project st :
  warned (beforeWriteProjects project) st = project_advisories project.
Proof. unfold warned. rewrite beforeWriteProjects_run. reflexivity. Qed.

Lemma raised_Tasks task st :
  raised (beforeWriteTasks task) st = task_violations st task.
Proof. unfold raised. rewrite beforeWriteTasks_run. reflexivity. Qed.

Lemma negative_violation_undefined msg :
  negative_violation Undefined msg = [].
Proof. reflexivity. Qed.

Lemma negative_violation_elem x msg err :
  err ∈ negative_violation x msg -> err = (400%Z, msg).
Proof.
  unfold negative_violation.
  destruct (defined x && js_lt x (Val 0%Z)); intros H.
  - apply list_elem_of_singleton in H. exact H.
  - apply elem_of_nil in H. contradiction.
Qed.

Lemma date_violation_elem project err :
  err ∈ date_violation project ->
  err = (400%Z, "End date must be after start date").
Proof.
  unfold date_violation.
  destruct (startDate project), (endDate project);
    try (intros H; apply elem_of_nil in H; contradiction).
  destruct (newDate a0 <? newDate a)%Z; intros H.
  - apply list_elem_of_singleton in H. exact H.
  - apply elem_of_nil in H. contradiction.
Qed.

Lemma reference_violation_elem st task err :
  err ∈ reference_violation st task -> err.1 = 404%Z.
Proof.
  unfold reference_violation.
  destruct (project_ID task) as [| | id];
    try (intros H; apply elem_of_nil in H; contradiction).
  destruct (truthy_str (Val id));
    [| intros H; apply elem_of_nil in H; contradiction].
  destruct (Projects st !! id); intros H.
  - apply elem_of_nil in H. contradiction.
  - apply list_elem_of_singleton in H. rewrite H. reflexivity.
Qed.

Lemma reference_violation_same task st1 st2 :
  same_reference task st1 st2 ->
  reference_violation st1 task = reference_violation st2 task.
Proof.
  unfold same_reference, reference_violation. intros Hsame.
  destruct (project_ID task) as [| | id]; try reflexivity.
  specialize (Hsame id eq_refl).
  destruct (truthy_str (Val id)); [| reflexivity].
  destruct (Projects st1 !! id) eqn:H1, (Projects st2 !! id) eqn:H2;
    try reflexivity.
  - destruct Hsame as [_ Hsame]. specialize (Hsame eq_refl). discriminate.
  - destruct Hsame as [Hsame _]. specialize (Hsame eq_refl). discriminate.
Qed.

(** C10. The validation before a write depends on the payload alone: the
    Projects handler registers the same errors and warnings whatever the
    store holds, the Tasks handler the same errors in any two stores that
    resolve the payload's project reference alike, and neither changes
    the store. A check whose property is left out of the payload is
    skipped: with [startDate] or [endDate] missing the date rule raises
    nothing, and with [budget], [actualCost], [estimatedHours] or
    [actualHours] missing the matching negativity error is not raised. *)
Theorem validation_reads_payload_only :
  (forall project st1 st2,
     raised (beforeWriteProjects project) st1 =
       raised (beforeWriteProjects project) st2 /\
     warned (beforeWriteProjects project) st1 =
       warned (beforeWriteProjects project) st2 /\
     db (beforeWriteProjects project (start st1)).2 = st1) /\
  (forall task st1 st2,
     same_reference task st1 st2 ->
     raised (beforeWriteTasks task) st1 = raised (beforeWriteTasks task) st2 /\
     warned (beforeWriteTasks task) st1 = warned (beforeWriteTasks task) st2 /\
     db (beforeWriteTasks task (start st1)).2 = st1) /\
  (forall project st,
     startDate project = Undefined \/ endDate project = Undefined ->
     (400%Z, "End date must be after start date")
       ∉ raised (beforeWriteProjects project) st) /\
  (forall project st,
     (budget project = Undefined ->
      (400%Z, "Budget cannot be negative")
        ∉ raised (beforeWriteProjects project) st) /\
     (actualCost project = Undefined ->
      (400%Z, "Actual cost cannot be negative")
        ∉ raised (beforeWriteProjects project) st)) /\
  (forall task st,
     (estimatedHours task = Undefined ->
      (400%Z, "Estimated hours cannot be negative")
        ∉ raised (beforeWriteTasks task) st) /\
     (actualHours task = Undefined ->
      (400%Z, "Actual hours cannot be negative")
        ∉ raised (beforeWriteTasks task) st)).
Proof.
  split; [| split; [| split; [| split]]].
  - intros project st1 st2. rewrite !raised_Projects, !warned_Projects.
    rewrite beforeWriteProjects_run. repeat split.
  - intros task st1 st2 Hsame. rewrite !raised_Tasks.
    unfold warned. rewrite !beforeWriteTasks_run. simpl.
    split; [| split; reflexivity].
    unfold task_violations.
    rewrite (reference_violation_same task st1 st2 Hsame). reflexivity.
  - intros project st Hmissing. rewrite raised_Projects.
    unfold project_violations. rewrite !elem_of_app.
    intros [Hin | [Hin | Hin]].
    + unfold date_violation in Hin.
      destruct Hmissing as [H | H]; rewrite H in Hin;
        [| destruct (startDate project)];
        apply elem_of_nil in Hin; contradiction.
    + apply negative_violation_elem in Hin. discriminate.
    + apply negative_violation_elem in Hin. discriminate.
  - intros project st.
    split; intros Hmissing; rewrite raised_Projects;
      unfold project_violations; rewrite Hmissing, !elem_of_app;
      intros [Hin | [Hin | Hin]];
      try (apply date_violation_elem in Hin; discriminate);
      try (apply negative_violation_elem in Hin; discriminate);
      apply elem_of_nil in Hin; contradiction.
  - intros task st.
    split; intros Hmissing; rewrite raised_Tasks;
      unfold task_violations; rewrite Hmissing, !elem_of_app;
      intros [Hin | [Hin | Hin]];
      try (apply reference_violation_elem in Hin; discriminate);
      try (apply negative_violation_elem in Hin; discriminate);
      apply elem_of_nil in Hin; contradiction.
Qed.

(** ** The cost warning *)

(** With a budget above zero, a cost above the budget is warned about and
    the warning does not stop the write. *)
Lemma cost_over_budget_warned (commit : Store -> Store) st project b c :
  budget project = Val b -> actualCost project = Val c ->
  (0 < b)%Z -> (b < c)%Z ->
  warned (beforeWriteProjects project) st = ["Actual cost exceeds budget"] /\
  (date_violation project = [] ->
   write commit (beforeWriteProjects project) st =
     (Succeeded tt ["Actual cost exceeds budget"], commit st)).
Proof.
  intros Hb Hc Hpos Hlt.
  assert (Hadv : project_advisories project = ["Actual cost exceeds budget"]).
  { unfold project_advisories, js_gt, js_lt, truthy. rewrite Hb, Hc. simpl.
    replace (b =? 0)%Z with false by (symmetry; apply Z.eqb_neq; lia).
    replace (c =? 0)%Z with false by (symmetry; apply Z.eqb_neq; lia).
    replace (b <? c)%Z with true by (symmetry; apply Z.ltb_lt; lia).
    reflexivity. }
  split.
  - rewrite warned_Projects. exact Hadv.
  - intros Hdates. rewrite write_Projects_run. unfold project_violations.
    rewrite Hdates, Hadv. unfold negative_violation, js_lt. rewrite Hb, Hc.
    simpl.
    replace (b <? 0)%Z with false by (symmetry; apply Z.ltb_ge; lia).
    replace (c <? 0)%Z with false by (symmetry; apply Z.ltb_ge; lia).
    reflexivity.
Qed.

(** A negative budget or a negative cost is rejected with status 400. *)
Lemma negative_amount_rejected (commit : Store -> Store) st project x :
  budget project = Val x \/ actualCost project = Val x -> (x < 0)%Z ->
  rejected_with 400 (write commit (beforeWriteProjects project) st).1 /\
  (write commit (beforeWriteProjects project) st).2 = st.
Proof.
  intros Hx Hneg. rewrite write_Projects_run.
  pose proof (project_violations_400 project) as H400.
  assert (Hne : project_violations project <> []).
  { unfold project_violations, negative_violation, js_lt.
    apply Z.ltb_lt in Hneg.
    destruct Hx as [Hx | Hx]; rewrite Hx; simpl; rewrite Hneg;
      intros Hnil; apply app_eq_nil in Hnil; destruct Hnil as [_ Hnil];
      [| apply app_eq_nil in Hnil; destruct Hnil as [_ Hnil]];
      discriminate. }
  destruct (project_violations project) as [| err errs];
    [contradiction |].
  split; [| reflexivity].
  exists (err :: errs). split; [reflexivity |]. split; assumption.
Qed.

(** C8, at a budget of 0. Both amounts are part of the payload and the
    cost is above the budget, yet the write is answered without any
    warning: the guard [project.budget && ...] takes the budget 0 for a
    missing one. *)
Theorem cost_over_zero_budget_not_warned (commit : Store -> Store) st :
  let project :=
    {| startDate := Undefined; endDate := Undefined;
       budget := Val 0%Z; actualCost := Val 50%Z |} in
  js_gt (actualCost project) (budget project) = true /\
  write commit (beforeWriteProjects project) st =
    (Succeeded tt [], commit st).
Proof.
  intros project. split; [reflexivity |].
  rewrite write_Projects_run. reflexivity.
Qed.

(** ** Calculated fields of a project *)

(** One row or many, every row gets its fields from the same function. *)
Lemma afterReadProjects_rows st projects :
  rows_of (afterReadProjects st projects) =
    project_fields st <$> rows_of projects.
Proof. destruct projects as [[p |] | ps]; reflexivity. Qed.


Lemma completion_rate_no_tasks completedTasks :
  completion_rate completedTasks 0 = Number 0.
Proof. reflexivity. Qed.

(** Up to 39 tasks the product of doubles rounds to the same integer as
    the exact percentage; checked on every pair of counts. *)
Lemma completion_rate_small completedTasks totalTasks :
  totalTasks < 40 -> completedTasks <= totalTasks ->
  completion_rate completedTasks totalTasks =
    Number (exact_completion_rate completedTasks totalTasks).
Proof.
  intros Ht Hc.
  assert (Hall :
    forallb (fun t =>
      forallb (fun c =>
        bool_decide (completion_rate c t = Number (exact_completion_rate c t)))
        (seq 0 (S t))) (seq 0 40) = true) by (vm_compute; reflexivity).
  rewrite forallb_forall in Hall.
  specialize (Hall totalTasks). rewrite forallb_forall in Hall.
  assert (Hin : completedTasks ∈ seq 0 (S totalTasks))
    by (apply elem_of_seq; lia).
  apply list_elem_of_In in Hin.
  eapply bool_decide_eq_true_1.
  apply Hall; [| exact Hin].
  apply list_elem_of_In, elem_of_seq. lia.
Qed.

(** Up to 50 tasks the rate read lies between 0 and 100; checked on
    every pair of counts. *)
Lemma completion_rate_range completedTasks totalTasks :
  totalTasks <= 50 -> completedTasks <= totalTasks ->
  SFleb (Number 0) (completion_rate completedTasks totalTasks) = true /\
  SFleb (completion_rate completedTasks totalTasks) (Number 100) = true.
Proof.
  intros Ht Hc.
  assert (Hall :
    forallb (fun t =>
      forallb (fun c =>
        SFleb (Number 0) (completion_rate c t)
        && SFleb (completion_rate c t) (Number 100))
        (seq 0 (S t))) (seq 0 51) = true) by (vm_compute; reflexivity).
  rewrite forallb_forall in Hall.
  specialize (Hall totalTasks). rewrite forallb_forall in Hall.
  apply andb_true_iff. apply Hall; apply list_elem_of_In, elem_of_seq; lia.
Qed.

(** The processor's doubles give the same product as the specification
    of IEEE 754 used here: [(23 / 40) * 100] is 57.499999999999993. *)
Lemma completion_product_23_40 :
  Prim2SF (PrimFloat.mul (PrimFloat.div 23%float 40%float) 100%float) =
    js_mul (js_div (Number 23) (Number 40)) (Number 100).
Proof. vm_compute. reflexivity. Qed.

(** C5, at a budget of 0 and at 23 tasks Done out of 40. The project read
    has its budget set, to 0, and a cost of 50, and its remaining budget
    is [null] where budget minus cost is -50; its completion rate is 57
    where 100 * 23 / 40 = 57.5 rounds to 58, the product of the doubles
    23/40 and 100 being just below 57.5. *)
Theorem zero_budget_reads_no_remainder :
  let project := sampleProject "P" (Some 0%Z) (Some 50%Z) in
  afterReadProjects (fortyTasks 23) (Single (Some project)) =
    Single (Some {| project_row := project;
                    completionRate := Number 57;
                    remainingBudget := None |}) /\
  js_sub (p_budget project) (p_actualCost project) = (-50)%Z /\
  exact_completion_rate 23 40 = 58%Z.
Proof. vm_compute. repeat split. Qed.

(** ** The overdue flag *)

Lemma afterReadTasks_rows c tasks :
  rows_of (afterReadTasks c tasks) =
    (fun task => {| task_row := task; isOverdue := overdue c task |})
      <$> rows_of tasks.
Proof. destruct tasks as [[t |] | ts]; reflexivity. Qed.

(** The flag is set exactly for a task that is not Done and whose due
    date, read as midnight UTC, lies before the last local midnight. *)
Lemma overdue_spec c task :
  overdue c task = true <->
  t_status task <> Done /\
  exists d, t_dueDate task = Some d /\ (newDate d < todayMidnight c)%Z.
Proof.
  unfold overdue. destruct (t_dueDate task) as [d |].
  - destruct (t_status task); simpl; rewrite ?Z.ltb_lt; split;
      try (intros H; split; [discriminate | exists d; split; [reflexivity | exact H]]);
      try (intros [_ (d' & [= <-] & H)]; exact H);
      try discriminate.
    intros [H _]. contradiction.
  - split; [discriminate | intros [_ (d & H & _)]; discriminate].
Qed.

(** On UTC and east of it the last local midnight separates the due
    dates before today's local date from the others. *)
Lemma todayMidnight_localDate c d :
  (0 <= tzOffset c < msPerDay)%Z ->
  (newDate d < todayMidnight c)%Z <-> (d < localDate c)%Z.
Proof.
  unfold newDate, todayMidnight, localDate, msPerDay.
  set (today := ((now c + tzOffset c) `div` 86400000)%Z). lia.
Qed.

(** West of UTC the due date of today's local date is before the last
    local midnight as well. *)
Lemma todayMidnight_west c d :
  (- msPerDay < tzOffset c < 0)%Z ->
  (newDate d < todayMidnight c)%Z <-> (d <= localDate c)%Z.
Proof.
  unfold newDate, todayMidnight, localDate, msPerDay.
  set (today := ((now c + tzOffset c) `div` 86400000)%Z). lia.
Qed.

(** On UTC and east of it the flag is the date-only comparison with the
    local date. *)
Lemma overdue_local_date c task :
  (0 <= tzOffset c < msPerDay)%Z ->
  overdue c task = true <->
  t_status task <> Done /\
  exists d, t_dueDate task = Some d /\ (d < localDate c)%Z.
Proof.
  intros Htz. rewrite overdue_spec.
  split; intros [Hs (d & Hd & Hlt)]; (split; [exact Hs |]); exists d;
    (split; [exact Hd |]); apply (todayMidnight_localDate c d Htz); exact Hlt.
Qed.

(** C6, in a time zone west of UTC. At noon of 2024-01-15 local time a
    task that is not Done and due on 2024-01-15, today's local date, is
    read with [isOverdue] set, while the same task read at the same
    instant on a UTC server is not: the due date is taken as midnight UTC,
    which is before the local midnight of the same calendar day. *)
Theorem due_today_overdue_west_of_UTC :
  let task := sampleTask "T" ToDo (Some 19737%Z) (Some "P") in
  localDate noonWestOfUTC = 19737%Z /\
  afterReadTasks noonWestOfUTC (Single (Some task)) =
    Single (Some {| task_row := task; isOverdue := true |}) /\
  afterReadTasks sameInstantUTC (Single (Some task)) =
    Single (Some {| task_row := task; isOverdue := false |}).
Proof. vm_compute. repeat split. Qed.

(** * The scenarios of the specification *)

(** The open task is completed once; the second call is turned down and
    changes nothing. *)
Lemma completeTask_scenario :
  exists st',
    call (completeTask sameInstantUTC "T") sampleStore =
      (Succeeded
         {| success := true;
            message := "Task " +:+ dquote +:+ "Write the release notes"
                       +:+ dquote +:+ " marked as completed" |} [], st') /\
    call (completeTask sameInstantUTC "T") st' =
      (Succeeded
         {| success := false; message := "Task is already completed" |} [],
       st').
Proof.
  destruct (completeTask_spec sameInstantUTC sampleStore "T")
    as (_ & _ & Hok).
  destruct (Hok (sampleTask "T" ToDo (Some 19737%Z) (Some "P")))
    as (st' & task' & Hcall & _ & _ & _ & _ & _ & _ & _ & _ & _ & Hagain);
    [vm_compute; reflexivity | discriminate |].
  exists st'. split; [exact Hcall | apply Hagain].
Defined.

(** The scenario of [assignTask]: Alice is assigned to the sample task,
    which moves to InProgress; an empty name and a name that is one
    no-break space are turned down and nothing is stored. *)
Lemma assignTask_scenario :
  (exists st' task',
     (call (assignTask "T" (Val "Alice")) sampleStore).2 = st' /\
     Tasks st' !! "T" = Some task' /\
     t_assignedTo task' = Some "Alice" /\ t_status task' = InProgress) /\
  call (assignTask "T" (Val "")) sampleStore =
    (Succeeded
       {| success := false; message := "Assignee name cannot be empty" |} [],
     sampleStore) /\
  call (assignTask "T" (Val (bytes [194; 160]%N))) sampleStore =
    (Succeeded
       {| success := false; message := "Assignee name cannot be empty" |} [],
     sampleStore).
Proof.
  destruct (assignTask_spec sampleStore "T") as (Hblank & _ & Hok).
  split; [| split].
  - destruct (Hok "Alice" (sampleTask "T" ToDo (Some 19737%Z) (Some "P")))
      as (st' & task' & Hcall & Hl & Ha & Hs & _).
    + intros HB. apply trim_empty in HB. discriminate HB.
    + vm_compute. reflexivity.
    + exists st', task'. rewrite Hcall.
      repeat split; [exact Hl | exact Ha | apply Hs; reflexivity].
  - apply (Hblank (Val "")). exact Blank_empty.
  - apply (Hblank (Val (bytes [194; 160]%N))). apply Blank_one.
    apply (list_elem_of_lookup_2 _ 6). reflexivity.
Defined.

(** Statistics of a project that does not exist: error 404, no payload. *)
Lemma getProjectStats_scenario :
  call (getProjectStats sameInstantUTC "Q") sampleStore =
    (Failed [(404%Z, "Project with ID Q not found")], sampleStore).
Proof.
  apply (getProjectStats_not_found sameInstantUTC sampleStore "Q").
  vm_compute. reflexivity.
Defined.

(** A project that ends the day before it starts is turned down. *)
Lemma project_dates_scenario :
  rejected_with 400
    (write (fun st => st)
       (beforeWriteProjects
          {| startDate := Val 19737%Z; endDate := Val 19736%Z;
             budget := Undefined; actualCost := Undefined |})
       sampleStore).1.
Proof.
  apply (project_dates_validated (fun st => st) sampleStore
           {| startDate := Val 19737%Z; endDate := Val 19736%Z;
              budget := Undefined; actualCost := Undefined |}
           19737%Z 19736%Z eq_refl eq_refl).
  lia.
Defined.

(** The sample project has one task that is not Done. *)
Lemma delete_scenario :
  write (fun st => st) (beforeDeleteProjects "P") sampleStore =
    (Failed
       [(400%Z,
         "Cannot delete project with 1 active task(s). Complete or reassign them first.")],
     sampleStore).
Proof.
  destruct (delete_blocked_by_active_tasks (fun st => st) sampleStore "P")
    as [Hblocked _].
  rewrite Hblocked; [vm_compute; reflexivity |].
  exists "T", (sampleTask "T" ToDo (Some 19737%Z) (Some "P")).
  split; [vm_compute; reflexivity |]. split; [reflexivity | discriminate].
Defined.

(** An UPDATE that sends the end date alone passes the date rule. *)
Lemma partial_update_scenario :
  (400%Z, "End date must be after start date")
    ∉ raised
        (beforeWriteProjects
           {| startDate := Undefined; endDate := Val 19736%Z;
              budget := Undefined; actualCost := Undefined |})
        sampleStore.
Proof.
  destruct validation_reads_payload_only as (_ & _ & Hdates & _).
  apply Hdates. left. reflexivity.
Defined.

(** * Further properties of the handlers *)

(** ** Writes of tasks *)

Lemma negative_violation_nil x msg :
  negative_violation x msg = [] <-> forall v, x = Val v -> (0 <= v)%Z.
Proof.
  unfold negative_violation, js_lt. destruct x as [| | v]; simpl.
  - split; [intros _ v H; discriminate | reflexivity].
  - split; [intros _ v H; discriminate | reflexivity].
  - destruct (Z.ltb_spec v 0); split.
    + discriminate.
    + intros H'. specialize (H' v eq_refl). lia.
    + intros _ v' [= <-]. assumption.
    + reflexivity.
Qed.

Lemma negative_violation_here x v msg :
  x = Val v -> (v < 0)%Z -> negative_violation x msg = [(400%Z, msg)].
Proof.
  intros -> Hneg. unfold negative_violation, js_lt. simpl.
  apply Z.ltb_lt in Hneg. rewrite Hneg. reflexivity.
Qed.

Lemma reference_violation_nil st task :
  reference_violation st task = [] <->
  forall id, project_ID task = Val id -> id <> EmptyString ->
             is_Some (Projects st !! id).
Proof.
  unfold reference_violation, truthy_str.
  destruct (project_ID task) as [| | id].
  - split; [intros _ id H; discriminate | reflexivity].
  - split; [intros _ id H; discriminate | reflexivity].
  - destruct (String.eqb_spec id EmptyString) as [-> | Hne]; simpl.
    + split; [intros _ id [= <-] H; contradiction | reflexivity].
    + destruct (Projects st !! id) as [p |] eqn:Hp; split.
      * intros _ id' [= <-] _. rewrite Hp. eexists. reflexivity.
      * reflexivity.
      * discriminate.
      * intros H. specialize (H id eq_refl Hne). rewrite Hp in H.
        destruct H as [p H]. discriminate.
Qed.

Lemma task_violations_codes st task :
  Forall (fun err : Z * string => err.1 = 400%Z \/ err.1 = 404%Z)
    (task_violations st task).
Proof.
  unfold task_violations. apply Forall_forall. intros err Hin.
  rewrite !elem_of_app in Hin. destruct Hin as [Hin | [Hin | Hin]].
  - apply negative_violation_elem in Hin. rewrite Hin. left. reflexivity.
  - apply negative_violation_elem in Hin. rewrite Hin. left. reflexivity.
  - apply reference_violation_elem in Hin. right. exact Hin.
Qed.

(** A task payload with negative estimated or actual hours is turned down
    with the matching error 400 and the write is not committed, whatever
    else the payload holds. *)
Theorem task_hours_validated (commit : Store -> Store) st task x :
  (x < 0)%Z ->
  (estimatedHours task = Val x ->
   exists errs,
     write commit (beforeWriteTasks task) st = (Failed errs, st) /\
     (400%Z, "Estimated hours cannot be negative") ∈ errs) /\
  (actualHours task = Val x ->
   exists errs,
     write commit (beforeWriteTasks task) st = (Failed errs, st) /\
     (400%Z, "Actual hours cannot be negative") ∈ errs).
Proof.
  intros Hneg. rewrite write_Tasks_run. unfold task_violations. split.
  - intros Hx.
    rewrite (negative_violation_here _ x _ Hx Hneg). simpl.
    eexists. split; [reflexivity | apply list_elem_of_here].
  - intros Hx.
    rewrite (negative_violation_here (actualHours task) x _ Hx Hneg).
    destruct (negative_violation (estimatedHours task) _) as [| e l] eqn:He;
      simpl.
    + eexists. split; [reflexivity | apply list_elem_of_here].
    + eexists. split; [reflexivity |].
      apply list_elem_of_further, elem_of_app. right. apply list_elem_of_here.
Qed.

(** A task payload that names a project which is not in the store is
    turned down with the error 404 that quotes the identifier, and the
    write is not committed; the error comes last, after those of the
    hours. *)
Theorem task_reference_validated (commit : Store -> Store) st task id :
  project_ID task = Val id -> id <> EmptyString ->
  Projects st !! id = None ->
  exists errs,
    write commit (beforeWriteTasks task) st =
      (Failed (errs ++ [(404%Z, "Project with ID " +:+ id +:+ " not found")]),
       st) /\
    Forall (fun err : Z * string => err.1 = 400%Z) errs.
Proof.
  intros Hid Hne Hnone. rewrite write_Tasks_run.
  unfold task_violations, reference_violation, truthy_str.
  rewrite Hid, Hnone.
  replace (String.eqb id EmptyString) with false
    by (symmetry; apply String.eqb_neq; exact Hne).
  simpl. rewrite app_assoc.
  set (hours := negative_violation (estimatedHours task)
                  "Estimated hours cannot be negative"
                ++ negative_violation (actualHours task)
                     "Actual hours cannot be negative").
  exists hours. split.
  - destruct (hours ++ [(404%Z, "Project with ID " +:+ id +:+ " not found")])
      as [| e l] eqn:Hl; [| reflexivity].
    apply app_eq_nil in Hl. destruct Hl as [_ Hl]. discriminate.
  - apply Forall_app_2; apply negative_violation_400.
Qed.

Lemma task_violations_nil st task :
  task_violations st task = [] <->
  (forall v, estimatedHours task = Val v -> (0 <= v)%Z) /\
  (forall v, actualHours task = Val v -> (0 <= v)%Z) /\
  (forall id, project_ID task = Val id -> id <> EmptyString ->
              is_Some (Projects st !! id)).
Proof.
  rewrite <- (negative_violation_nil (estimatedHours task)
                "Estimated hours cannot be negative").
  rewrite <- (negative_violation_nil (actualHours task)
                "Actual hours cannot be negative").
  rewrite <- reference_violation_nil. unfold task_violations. split.
  - intros H. apply app_eq_nil in H. destruct H as [H1 H].
    apply app_eq_nil in H. destruct H as [H2 H3]. auto.
  - intros (H1 & H2 & H3). rewrite H1, H2, H3. reflexivity.
Qed.

(** A write of a task is committed exactly when its hours are not
    negative and its project reference, if it carries a non-empty one,
    resolves; a write that is turned down leaves the store as it was and
    carries errors 400 and 404 only, and an accepted one has no
    warning. *)
Theorem task_write_committed_iff (commit : Store -> Store) st task :
  ((write commit (beforeWriteTasks task) st).1 = Succeeded tt [] <->
   (forall v, estimatedHours task = Val v -> (0 <= v)%Z) /\
   (forall v, actualHours task = Val v -> (0 <= v)%Z) /\
   (forall id, project_ID task = Val id -> id <> EmptyString ->
               is_Some (Projects st !! id))) /\
  ((write commit (beforeWriteTasks task) st).1 = Succeeded tt [] ->
   (write commit (beforeWriteTasks task) st).2 = commit st) /\
  (forall errs,
     (write commit (beforeWriteTasks task) st).1 = Failed errs ->
     (write commit (beforeWriteTasks task) st).2 = st /\
     errs <> [] /\
     Forall (fun err : Z * string => err.1 = 400%Z \/ err.1 = 404%Z) errs).
Proof.
  rewrite write_Tasks_run.
  pose proof (task_violations_codes st task) as Hcodes.
  pose proof (task_violations_nil st task) as Hnil.
  destruct (task_violations st task) as [| err errs']; simpl.
  - split; [| split].
    + split; [intros _; apply Hnil; reflexivity | reflexivity].
    + reflexivity.
    + discriminate.
  - split; [| split].
    + split; [discriminate |].
      intros H. apply Hnil in H. discriminate.
    + discriminate.
    + intros errs [= <-].
      split; [reflexivity | split; [discriminate | exact Hcodes]].
Qed.

(** ** Writes of projects *)

Lemma date_violation_nil project :
  date_violation project = [] <->
  forall s e, startDate project = Val s -> endDate project = Val e ->
              (s <= e)%Z.
Proof.
  unfold date_violation.
  destruct (startDate project) as [| | s], (endDate project) as [| | e];
    try (split; [intros _ s' e' H1 H2; discriminate | reflexivity]).
  rewrite newDate_lt. destruct (Z.ltb_spec e s); split.
  - discriminate.
  - intros H'. specialize (H' s e eq_refl eq_refl). lia.
  - intros _ s' e' [= <-] [= <-]. assumption.
  - reflexivity.
Qed.

Lemma project_violations_nil project :
  project_violations project = [] <->
  (forall s e, startDate project = Val s -> endDate project = Val e ->
               (s <= e)%Z) /\
  (forall b, budget project = Val b -> (0 <= b)%Z) /\
  (forall c, actualCost project = Val c -> (0 <= c)%Z).
Proof.
  rewrite <- date_violation_nil.
  rewrite <- (negative_violation_nil (budget project)
                "Budget cannot be negative").
  rewrite <- (negative_violation_nil (actualCost project)
                "Actual cost cannot be negative").
  unfold project_violations. split.
  - intros H. apply app_eq_nil in H. destruct H as [H1 H].
    apply app_eq_nil in H. destruct H as [H2 H3]. auto.
  - intros (H1 & H2 & H3). rewrite H1, H2, H3. reflexivity.
Qed.

(** A write of a project is committed exactly when the end date is not
    before the start date (if the payload has both) and neither the budget
    nor the cost of the payload is negative; [null] amounts and missing
    ones pass. A write that is turned down leaves the store as it was and
    carries errors 400 only; the warning has no part in the decision. *)
Theorem project_write_committed_iff (commit : Store -> Store) st project :
  ((exists warns,
      (write commit (beforeWriteProjects project) st).1 = Succeeded tt warns)
   <->
   (forall s e, startDate project = Val s -> endDate project = Val e ->
                (s <= e)%Z) /\
   (forall b, budget project = Val b -> (0 <= b)%Z) /\
   (forall c, actualCost project = Val c -> (0 <= c)%Z)) /\
  (forall warns,
     (write commit (beforeWriteProjects project) st).1 = Succeeded tt warns ->
     (write commit (beforeWriteProjects project) st).2 = commit st /\
     warns = warned (beforeWriteProjects project) st) /\
  (forall errs,
     (write commit (beforeWriteProjects project) st).1 = Failed errs ->
     (write commit (beforeWriteProjects project) st).2 = st /\
     errs <> [] /\ Forall (fun err : Z * string => err.1 = 400%Z) errs).
Proof.
  rewrite write_Projects_run, warned_Projects.
  pose proof (project_violations_400 project) as Hcodes.
  pose proof (project_violations_nil project) as Hnil.
  destruct (project_violations project) as [| err errs']; simpl.
  - split; [| split].
    + split; [intros _; apply Hnil; reflexivity |].
      intros _. eexists. reflexivity.
    + intros warns [= <-]. split; reflexivity.
    + discriminate.
  - split; [| split].
    + split; [intros [warns H]; discriminate |].
      intros H. apply Hnil in H. discriminate.
    + discriminate.
    + intros errs [= <-].
      split; [reflexivity | split; [discriminate | exact Hcodes]].
Qed.

(** ** Exact cases of the completion rate *)

(** The doubles of the counts: up to 2^53 a count is a double, with a
    mantissa of 53 bits. *)
Lemma digits2_pos_size p : digits2_pos p = Pos.size p.
Proof. induction p; simpl; congruence. Qed.

Lemma digits2_pos_iter p k :
  digits2_pos (Pos.iter xO p k) = (digits2_pos p + k)%positive.
Proof.
  induction k as [| k IH] using Pos.peano_ind.
  - simpl. lia.
  - rewrite Pos.iter_succ. simpl. rewrite IH. lia.
Qed.

Lemma digits2_pos_bound p : (Zpos p < 2 ^ 53)%Z -> (Zpos (digits2_pos p) <= 53)%Z.
Proof.
  intros H. rewrite digits2_pos_size.
  pose proof (Pos.size_le p) as Hle.
  destruct (Z_le_gt_dec (Zpos (Pos.size p)) 53) as [Hs | Hs]; [exact Hs |].
  exfalso.
  assert (Hpow : (2 ^ 54 <= 2 ^ Zpos (Pos.size p))%Z).
  { apply Z.pow_le_mono_r; lia. }
  assert (Hz : (2 ^ Zpos (Pos.size p) <= Zpos p~0)%Z).
  { rewrite <- Pos2Z.inj_pow. apply Pos2Z.pos_le_pos. exact Hle. }
  change (2 ^ 54)%Z with (2 * 2 ^ 53)%Z in Hpow. lia.
Qed.

Lemma shr_zero mrs e n : n = 0%Z -> shr mrs e n = (mrs, e).
Proof. intros ->. reflexivity. Qed.

Lemma shr_fexp_exact m e :
  digits2_pos m = 53%positive -> (-1074 <= e)%Z ->
  shr_fexp 53 1024 (Zpos m) e loc_Exact =
    ({| shr_m := Zpos m; shr_r := false; shr_s := false |}, e).
Proof.
  intros Hd He. unfold shr_fexp, fexp, emin.
  cbn [Zdigits2 shr_record_of_loc]. rewrite Hd.
  apply shr_zero. lia.
Qed.

Lemma binary_round_aux_exact s m e :
  digits2_pos m = 53%positive -> (-1074 <= e <= 971)%Z ->
  binary_round_aux 53 1024 s (Zpos m) e loc_Exact = S754_finite s m e.
Proof.
  intros Hd He. unfold binary_round_aux.
  rewrite (shr_fexp_exact m e Hd) by lia.
  cbn [shr_m loc_of_shr_record round_nearest_even].
  rewrite (shr_fexp_exact m e Hd) by lia.
  cbn [shr_m].
  replace (Z.leb e (Z.sub 1024 53)) with true
    by (symmetry; apply Z.leb_le; lia).
  reflexivity.
Qed.

Lemma Number_finite p :
  (Zpos p < 2 ^ 53)%Z ->
  exists m e, Number (Zpos p) = S754_finite false m e /\
              digits2_pos m = 53%positive /\ (-52 <= e <= 0)%Z.
Proof.
  intros Hp. apply digits2_pos_bound in Hp.
  unfold Number, binary_normalize, binary_round, shl_align, fexp, emin.
  set (d := digits2_pos p) in *.
  replace (Z.max (Zpos d + 0 - 53) (3 - 1024 - 53))%Z with (Zpos d - 53)%Z by lia.
  destruct (Zpos d - 53 - 0)%Z as [| k | k] eqn:Hk.
  - exists p, 0%Z. split; [apply binary_round_aux_exact; [fold d|]; lia |].
    split; [fold d|]; lia.
  - lia.
  - exists (Pos.iter xO p k), (Zpos d - 53)%Z.
    assert (Hdig : digits2_pos (Pos.iter xO p k) = 53%positive).
    { rewrite digits2_pos_iter. fold d. lia. }
    split; [apply binary_round_aux_exact; [exact Hdig | lia] |].
    split; [exact Hdig | lia].
Qed.

Lemma div_eucl_self m k :
  Z.div_eucl (Z.shiftl (Zpos m) k) (Zpos m) = (2 ^ k, 0)%Z \/ (k < 0)%Z.
Proof.
  destruct (Z_lt_ge_dec k 0) as [Hk | Hk]; [right; exact Hk | left].
  rewrite Z.shiftl_mul_pow2 by lia.
  pose proof (Z.div_eucl_eq (Zpos m * 2 ^ k) (Zpos m)) as Heq.
  pose proof (Z.mod_pos_bound (Zpos m * 2 ^ k) (Zpos m)) as Hb.
  unfold Z.modulo in Hb.
  destruct (Z.div_eucl (Zpos m * 2 ^ k) (Zpos m)) as [q r].
  specialize (Heq ltac:(lia)). specialize (Hb ltac:(lia)).
  assert (Hq : q = (2 ^ k)%Z) by nia.
  subst q. f_equal. lia.
Qed.

Lemma js_div_self m e :
  digits2_pos m = 53%positive ->
  js_div (S754_finite false m e) (S754_finite false m e) = Number 1.
Proof.
  intros Hd. unfold js_div, SFdiv, SFdiv_core_binary.
  cbn [Zdigits2]. rewrite Hd.
  replace (Z.sub (Z.add (Zpos 53) e) (Z.add (Zpos 53) e)) with 0%Z by lia.
  replace (Z.sub e e) with 0%Z by lia.
  change (Z.min (fexp 53 1024 0) 0) with (-53)%Z.
  change (Z.sub 0 (-53)) with 53%Z. cbv iota.
  destruct (div_eucl_self m 53) as [Hdiv | Hneg]; [| lia].
  rewrite Hdiv.
  assert (Hloc : new_location (Zpos m) 0 = loc_Exact).
  { unfold new_location. destruct (Z.even (Zpos m)); reflexivity. }
  rewrite Hloc. vm_compute. reflexivity.
Qed.


(** All tasks Done gives exactly 100 and no task Done exactly 0, for any
    number of tasks below 2^53. *)
Lemma completion_rate_full totalTasks :
  0 < totalTasks -> (Z.of_nat totalTasks < 2 ^ 53)%Z ->
  completion_rate totalTasks totalTasks = Number 100.
Proof.
  intros Hpos Hlt. unfold completion_rate.
  replace (0 <? totalTasks) with true by (symmetry; apply Nat.ltb_lt; lia).
  destruct (Z.of_nat totalTasks) as [| p | p] eqn:Hp; try lia.
  destruct (Number_finite p Hlt) as (m & e & -> & Hd & _).
  rewrite (js_div_self m e Hd). vm_compute. reflexivity.
Qed.

Lemma completion_rate_none totalTasks :
  (Z.of_nat totalTasks < 2 ^ 53)%Z ->
  completion_rate 0 totalTasks = Number 0.
Proof.
  intros Hlt. unfold completion_rate.
  destruct (Nat.ltb_spec 0 totalTasks) as [Hpos | Hzero]; [| reflexivity].
  destruct (Z.of_nat totalTasks) as [| p | p] eqn:Hp; try lia.
  destruct (Number_finite p Hlt) as (m & e & -> & _ & _).
  reflexivity.
Qed.

(** ** Rows and counts of a SELECT *)

Lemma elem_of_select_where {A} (p : A -> bool) (tbl : gmap string A) (x : A) :
  x ∈ select_where p tbl <-> p x = true /\ exists id, tbl !! id = Some x.
Proof.
  unfold select_where. rewrite list_elem_of_In, filter_In.
  rewrite <- list_elem_of_In, list_elem_of_fmap. split.
  - intros [([id y] & -> & Hin) Hp]. split; [exact Hp |].
    exists id. apply elem_of_map_to_list. exact Hin.
  - intros [Hp (id & Hl)]. split; [| exact Hp].
    exists (id, x). split; [reflexivity |].
    apply elem_of_map_to_list. exact Hl.
Qed.

Lemma select_where_length_le {A} (p : A -> bool) (tbl : gmap string A) :
  length (select_where p tbl) <= size tbl.
Proof. rewrite select_where_count. apply map_size_filter. Qed.

Lemma filter_length_all {A} (p : A -> bool) (l : list A) :
  (forall x, x ∈ l -> p x = true) -> length (List.filter p l) = length l.
Proof.
  induction l as [| x l IH]; intros H; [reflexivity |]. simpl.
  rewrite (H x) by apply list_elem_of_here. simpl. f_equal.
  apply IH. intros y Hy. apply H. apply list_elem_of_further. exact Hy.
Qed.

Lemma filter_length_none {A} (p : A -> bool) (l : list A) :
  (forall x, x ∈ l -> p x = false) -> length (List.filter p l) = 0.
Proof.
  induction l as [| x l IH]; intros H; [reflexivity |]. simpl.
  rewrite (H x) by apply list_elem_of_here.
  apply IH. intros y Hy. apply H. apply list_elem_of_further. exact Hy.
Qed.

Lemma filter_filter_and {A} (p q : A -> bool) (l : list A) :
  List.filter q (List.filter p l) = List.filter (fun x => p x && q x) l.
Proof.
  induction l as [| x l IH]; [reflexivity |]. simpl.
  destruct (p x); simpl; [destruct (q x) |]; rewrite IH; reflexivity.
Qed.

Lemma filter_length_split {A} (p : A -> bool) (l : list A) :
  length (List.filter p l) + length (List.filter (fun x => negb (p x)) l)
  = length l.
Proof.
  induction l as [| x l IH]; [reflexivity |]. simpl.
  destruct (p x); simpl; lia.
Qed.

Lemma filter_length_disjoint {A} (p q : A -> bool) (l : list A) :
  (forall x, p x = true -> q x = false) ->
  length (List.filter p l) + length (List.filter q l) <= length l.
Proof.
  intros Hpq. induction l as [| x l IH]; [reflexivity |]. simpl.
  destruct (p x) eqn:Hp; simpl.
  - rewrite (Hpq x Hp). lia.
  - destruct (q x); simpl; lia.
Qed.

Lemma filter_ext_in {A} (p q : A -> bool) (l : list A) :
  (forall x, x ∈ l -> p x = q x) -> List.filter p l = List.filter q l.
Proof.
  induction l as [| x l IH]; intros H; [reflexivity |]. simpl.
  rewrite (H x) by apply list_elem_of_here.
  rewrite IH; [reflexivity |].
  intros y Hy. apply H. apply list_elem_of_further. exact Hy.
Qed.

(** ** Reads *)


Lemma project_fields_all_or_none st project :
  (Z.of_nat (size (Tasks st)) < 2 ^ 53)%Z ->
  ((exists id t, Tasks st !! id = Some t /\
                 t_project_ID t = Some (p_ID project)) ->
   (forall id t, Tasks st !! id = Some t ->
                 t_project_ID t = Some (p_ID project) -> t_status t = Done) ->
   completionRate (project_fields st project) = Number 100) /\
  ((forall id t, Tasks st !! id = Some t ->
                 t_project_ID t = Some (p_ID project) -> t_status t <> Done) ->
   completionRate (project_fields st project) = Number 0).
Proof.
  intros Hsize.
  set (tasks := select_where (of_project (p_ID project)) (Tasks st)).
  assert (Hlen : (Z.of_nat (length tasks) < 2 ^ 53)%Z).
  { pose proof (select_where_length_le (of_project (p_ID project)) (Tasks st))
      as Hle.
    fold tasks in Hle. lia. }
  assert (Hof : forall t, t ∈ tasks ->
            t_project_ID t = Some (p_ID project) /\
            exists id, Tasks st !! id = Some t).
  { intros t Ht. apply elem_of_select_where in Ht.
    destruct Ht as [Hp Hid]. split; [| exact Hid].
    unfold of_project in Hp. destruct (t_project_ID t) as [pid |];
      [| discriminate].
    apply String.eqb_eq in Hp. rewrite Hp. reflexivity. }
  split.
  - intros (id & t & Hl & Hp) Hall. simpl. fold tasks.
    rewrite filter_length_all.
    + apply completion_rate_full; [| exact Hlen].
      assert (Hin : t ∈ tasks).
      { apply elem_of_select_where. split; [| exists id; exact Hl].
        unfold of_project. rewrite Hp. apply String.eqb_refl. }
      destruct tasks; [apply elem_of_nil in Hin; contradiction | simpl; lia].
    + intros x Hx. destruct (Hof x Hx) as [Hp' (id' & Hl')].
      rewrite (Hall id' x Hl' Hp'). reflexivity.
  - intros Hnone. simpl. fold tasks.
    rewrite filter_length_none.
    + apply completion_rate_none. exact Hlen.
    + intros x Hx. destruct (Hof x Hx) as [Hp' (id' & Hl')].
      specialize (Hnone id' x Hl' Hp').
      destruct (t_status x); try reflexivity. contradiction.
Qed.

(** A project whose tasks are all Done, and that has one at least, is
    read with the completion rate 100; a project none of whose tasks is
    Done, or without tasks, is read with the rate 0 (the store holding
    fewer than 2^53 tasks). *)
Theorem afterReadProjects_all_or_none st projects r :
  (Z.of_nat (size (Tasks st)) < 2 ^ 53)%Z ->
  r ∈ rows_of (afterReadProjects st projects) ->
  ((exists id t, Tasks st !! id = Some t /\
                 t_project_ID t = Some (p_ID (project_row r))) ->
   (forall id t, Tasks st !! id = Some t ->
                 t_project_ID t = Some (p_ID (project_row r)) ->
                 t_status t = Done) ->
   completionRate r = Number 100) /\
  ((forall id t, Tasks st !! id = Some t ->
                 t_project_ID t = Some (p_ID (project_row r)) ->
                 t_status t <> Done) ->
   completionRate r = Number 0).
Proof.
  intros Hsize Hr. rewrite afterReadProjects_rows in Hr.
  apply list_elem_of_fmap in Hr. destruct Hr as (project & -> & _).
  apply project_fields_all_or_none. exact Hsize.
Qed.

(** On a server on UTC or east of it, a READ of tasks returns the rows it
    was given, in their order, and flags exactly the tasks that are not
    Done and whose due date is before the local date of the clock; a task
    without due date is never flagged. *)
Theorem afterReadTasks_local_date c tasks :
  (0 <= tzOffset c < msPerDay)%Z ->
  task_row <$> rows_of (afterReadTasks c tasks) = rows_of tasks /\
  forall r, r ∈ rows_of (afterReadTasks c tasks) ->
    (isOverdue r = true <->
     t_status (task_row r) <> Done /\
     exists d, t_dueDate (task_row r) = Some d /\ (d < localDate c)%Z).
Proof.
  intros Htz. rewrite afterReadTasks_rows. split.
  - rewrite <- list_fmap_compose. apply list_fmap_id.
  - intros r Hr. apply list_elem_of_fmap in Hr.
    destruct Hr as (task & -> & _). simpl.
    apply overdue_local_date. exact Htz.
Qed.

(** On a server west of UTC the flag is also set for the tasks due on the
    local date of the clock itself: it is set exactly for the tasks that
    are not Done and whose due date is on or before that date. *)
Theorem afterReadTasks_west_of_UTC c tasks :
  (- msPerDay < tzOffset c < 0)%Z ->
  forall r, r ∈ rows_of (afterReadTasks c tasks) ->
    (isOverdue r = true <->
     t_status (task_row r) <> Done /\
     exists d, t_dueDate (task_row r) = Some d /\ (d <= localDate c)%Z).
Proof.
  intros Htz r Hr. rewrite afterReadTasks_rows in Hr.
  apply list_elem_of_fmap in Hr. destruct Hr as (task & -> & _). simpl.
  rewrite overdue_spec.
  split; intros [Hs (d & Hd & Hlt)]; (split; [exact Hs |]); exists d;
    (split; [exact Hd |]); apply (todayMidnight_west c d Htz); exact Hlt.
Qed.

(** ** Statistics of a project *)

Lemma of_project_spec projectID t :
  of_project projectID t = true <-> t_project_ID t = Some projectID.
Proof.
  unfold of_project. destruct (t_project_ID t) as [p |].
  - rewrite String.eqb_eq. split; [intros ->; reflexivity | intros [= ->]; reflexivity].
  - split; discriminate.
Qed.

Lemma is_done_spec t : is_done (t_status t) = true <-> t_status t = Done.
Proof. destruct (t_status t); simpl; split; congruence. Qed.

(** The overdue test of [getProjectStats] is the one of the READ of
    tasks. *)
Lemma stats_overdue_eq c t :
  match t_dueDate t with
  | Some d =>
      if is_done (t_status t) then false
      else (newDate d <? todayMidnight c)%Z
  | None => false
  end = overdue c t.
Proof.
  unfold overdue. destruct (t_dueDate t); [| reflexivity].
  destruct (is_done (t_status t)); reflexivity.
Qed.

Lemma select_where_filter {A} (p q : A -> bool) (tbl : gmap string A) :
  List.filter q (select_where p tbl) =
    select_where (fun x => p x && q x) tbl.
Proof. unfold select_where. apply filter_filter_and. Qed.

Lemma getProjectStats_found c st projectID project :
  Projects st !! projectID = Some project ->
  call (getProjectStats c projectID) st =
    (Succeeded
       {| totalTasks :=
            length (select_where (of_project projectID) (Tasks st));
          completedTasks :=
            length (select_where
                      (fun t => of_project projectID t
                                && is_done (t_status t)) (Tasks st));
          statsCompletionRate :=
            completion_rate
              (length (select_where
                         (fun t => of_project projectID t
                                   && is_done (t_status t)) (Tasks st)))
              (length (select_where (of_project projectID) (Tasks st)));
          overdueTasks :=
            length (select_where
                      (fun t => of_project projectID t && overdue c t)
                      (Tasks st)) |} [], st).
Proof.
  intros Hsome. unfold getProjectStats. run. rewrite Hsome. simpl.
  rewrite (filter_ext_in
             (fun t =>
                match t_dueDate t with
                | Some d =>
                    if is_done (t_status t) then false
                    else (newDate d <? todayMidnight c)%Z
                | None => false
                end) (overdue c));
    [| intros t _; apply stats_overdue_eq].
  rewrite !select_where_filter. reflexivity.
Qed.

(** For a project of the store, [getProjectStats] answers with a payload,
    no error and no change of the store: [totalTasks] is the number of
    tasks that reference the project, [completedTasks] the number of
    those that are Done, [overdueTasks] the number of those that the READ
    of tasks flags at the same clock; completed and overdue tasks
    together never exceed the total. *)
Theorem getProjectStats_counts c st projectID project :
  Projects st !! projectID = Some project ->
  exists stats,
    call (getProjectStats c projectID) st = (Succeeded stats [], st) /\
    totalTasks stats =
      size (filter (fun kv : string * Task =>
                      t_project_ID kv.2 = Some projectID) (Tasks st)) /\
    completedTasks stats =
      size (filter (fun kv : string * Task =>
                      t_project_ID kv.2 = Some projectID /\
                      t_status kv.2 = Done) (Tasks st)) /\
    overdueTasks stats =
      size (filter (fun kv : string * Task =>
                      t_project_ID kv.2 = Some projectID /\
                      overdue c kv.2 = true) (Tasks st)) /\
    completedTasks stats + overdueTasks stats <= totalTasks stats.
Proof.
  intros Hsome. eexists. split; [eapply getProjectStats_found; exact Hsome |].
  simpl.
  assert (Hle :
    length (select_where
              (fun t => of_project projectID t && is_done (t_status t))
              (Tasks st))
    + length (select_where
                (fun t => of_project projectID t && overdue c t) (Tasks st))
    <= length (select_where (of_project projectID) (Tasks st))).
  { rewrite <- (select_where_filter (of_project projectID)
                  (fun t => is_done (t_status t))).
    rewrite <- (select_where_filter (of_project projectID) (overdue c)).
    apply filter_length_disjoint. intros t Hdone.
    unfold overdue. destruct (t_dueDate t); [| reflexivity].
    rewrite Hdone. reflexivity. }
  split; [| split; [| split; [| exact Hle]]]; rewrite select_where_count;
    f_equal; apply map_filter_ext; intros id t _; simpl.
  - apply of_project_spec.
  - rewrite andb_true_iff, of_project_spec, is_done_spec. reflexivity.
  - rewrite andb_true_iff, of_project_spec. reflexivity.
Qed.

(** The statistics agree with the reads: the completion rate is the one
    a READ of the project returns, and the number of overdue tasks is the
    number of rows flagged in a READ of the tasks of the project at the
    same clock. *)
Theorem getProjectStats_agrees_with_reads c st project :
  Projects st !! p_ID project = Some project ->
  exists stats,
    call (getProjectStats c (p_ID project)) st = (Succeeded stats [], st) /\
    (forall r,
       r ∈ rows_of (afterReadProjects st (Single (Some project))) ->
       completionRate r = statsCompletionRate stats) /\
    overdueTasks stats =
      length (List.filter isOverdue
                (rows_of (afterReadTasks c
                   (Collection
                      (select_where (of_project (p_ID project))
                         (Tasks st)))))).
Proof.
  intros Hsome. eexists. split; [eapply getProjectStats_found; exact Hsome |].
  simpl. split.
  - intros r Hr. apply list_elem_of_singleton in Hr. subst r. simpl.
    rewrite select_where_filter. reflexivity.
  - rewrite <- select_where_filter.
    induction (select_where (of_project (p_ID project)) (Tasks st))
      as [| t l IH]; [reflexivity |].
    simpl. destruct (overdue c t); simpl; rewrite IH; reflexivity.
Qed.

(** ** Counts under an UPDATE by key *)

Lemma select_where_insert_fresh {A} (p : A -> bool) (k : string) (x : A)
    (tbl : gmap string A) :
  tbl !! k = None ->
  length (select_where p (<[k:=x]> tbl)) =
    length (select_where p tbl) + (if p x then 1 else 0).
Proof.
  intros Hk. rewrite !select_where_count, map_filter_insert.
  destruct (p x) eqn:Hp.
  - rewrite decide_True by exact Hp.
    rewrite map_size_insert_None; [lia |].
    apply map_lookup_filter_None. left. exact Hk.
  - rewrite decide_False by (simpl; rewrite Hp; discriminate).
    rewrite delete_id by exact Hk. lia.
Qed.

Lemma alter_as_insert {A} (f : A -> A) (k : string) (tbl : gmap string A)
    (a : A) :
  tbl !! k = Some a -> alter f k tbl = <[k:=f a]> (delete k tbl).
Proof.
  intros Hk. apply map_eq. intros j. destruct (decide (k = j)) as [<- | Hne].
  - rewrite lookup_alter_eq, lookup_insert_eq, Hk. reflexivity.
  - rewrite lookup_alter_ne, lookup_insert_ne, lookup_delete_ne by exact Hne.
    reflexivity.
Qed.

(** An UPDATE of the row [a] moves a count by what the row contributes
    before and after. *)
Lemma select_where_alter {A} (p : A -> bool) (f : A -> A) (k : string)
    (tbl : gmap string A) (a : A) :
  tbl !! k = Some a ->
  length (select_where p (alter f k tbl)) + (if p a then 1 else 0) =
    length (select_where p tbl) + (if p (f a) then 1 else 0).
Proof.
  intros Hk. rewrite (alter_as_insert f k tbl a Hk).
  rewrite <- (insert_delete_id tbl k a Hk) at 2.
  rewrite !select_where_insert_fresh by apply lookup_delete_eq. lia.
Qed.

(** ** Deleting and the statistics *)

Lemma active_as_filter st projectID :
  select_where (active_of projectID) (Tasks st) =
    List.filter (fun t => negb (is_done (t_status t)))
      (select_where (of_project projectID) (Tasks st)).
Proof. rewrite select_where_filter. reflexivity. Qed.

Lemma active_plus_completed st projectID :
  length (select_where
            (fun t => of_project projectID t && is_done (t_status t))
            (Tasks st))
  + length (select_where (active_of projectID) (Tasks st))
  = length (select_where (of_project projectID) (Tasks st)).
Proof.
  rewrite active_as_filter.
  rewrite <- (select_where_filter (of_project projectID)
                (fun t => is_done (t_status t))).
  apply filter_length_split.
Qed.

(** A project of the store can be deleted exactly when its statistics
    show every task completed; when it cannot, the number in the error
    message is [totalTasks - completedTasks]. *)
Theorem delete_iff_all_completed (commit : Store -> Store) c st projectID
    project :
  Projects st !! projectID = Some project ->
  exists stats,
    call (getProjectStats c projectID) st = (Succeeded stats [], st) /\
    ((write commit (beforeDeleteProjects projectID) st).1 = Succeeded tt []
     <-> completedTasks stats = totalTasks stats) /\
    (forall errs,
       (write commit (beforeDeleteProjects projectID) st).1 = Failed errs ->
       errs =
         [(400%Z,
           "Cannot delete project with "
           +:+ pretty (totalTasks stats - completedTasks stats)
           +:+ " active task(s). Complete or reassign them first.")]).
Proof.
  intros Hsome. eexists.
  split; [eapply getProjectStats_found; exact Hsome |]. simpl.
  rewrite beforeDeleteProjects_run. simpl.
  pose proof (active_plus_completed st projectID) as Hsum.
  destruct (length (select_where (active_of projectID) (Tasks st)))
    as [| n] eqn:Hn; simpl.
  - split; [split; [intros _; lia | reflexivity] | discriminate].
  - split; [split; [discriminate | intros Heq; lia] |].
    intros errs [= <-]. repeat f_equal. lia.
Qed.

(** ** The actions and the statistics *)

(** What the answers to [getProjectStats] and to a DELETE depend on. *)
Lemma getProjectStats_same c st st' projectID :
  Projects st' = Projects st ->
  (forall p : Task -> bool,
     (p = of_project projectID \/
      p = (fun t => of_project projectID t && is_done (t_status t)) \/
      p = (fun t => of_project projectID t && overdue c t)) ->
     length (select_where p (Tasks st')) = length (select_where p (Tasks st)))
  ->
  (call (getProjectStats c projectID) st').1 =
    (call (getProjectStats c projectID) st).1.
Proof.
  intros Hprojects Hcounts.
  destruct (Projects st !! projectID) as [project |] eqn:Hp.
  - rewrite (getProjectStats_found c st projectID project Hp).
    rewrite (getProjectStats_found c st' projectID project)
      by (rewrite Hprojects; exact Hp).
    simpl. rewrite !Hcounts by auto. reflexivity.
  - unfold getProjectStats. run. rewrite Hprojects, Hp. reflexivity.
Qed.

Lemma delete_same (commit : Store -> Store) st st' projectID :
  length (select_where (active_of projectID) (Tasks st')) =
    length (select_where (active_of projectID) (Tasks st)) ->
  (write commit (beforeDeleteProjects projectID) st').1 =
    (write commit (beforeDeleteProjects projectID) st).1.
Proof.
  intros Hcount. rewrite !beforeDeleteProjects_run. simpl. rewrite Hcount.
  destruct (length (select_where (active_of projectID) (Tasks st)));
    reflexivity.
Qed.

Lemma select_where_alter_same {A} (p : A -> bool) (f : A -> A) (k : string)
    (tbl : gmap string A) :
  (forall a, tbl !! k = Some a -> p (f a) = p a) ->
  length (select_where p (alter f k tbl)) = length (select_where p tbl).
Proof.
  intros Hsame. destruct (tbl !! k) as [a |] eqn:Hk.
  - pose proof (select_where_alter p f k tbl a Hk) as Hcount.
    rewrite (Hsame a eq_refl) in Hcount. lia.
  - rewrite alter_id'; [reflexivity | exact Hk].
Qed.

(** The status that [assignTask] sets is Done exactly when the old one
    was. *)
Lemma assigned_status_done s :
  is_done (if decide (s = ToDo) then InProgress else s) = is_done s.
Proof. destruct s; reflexivity. Qed.

Lemma overdue_set_assigned c who task :
  overdue c
    (set_assigned who
       (if decide (t_status task = ToDo) then InProgress else t_status task)
       task) = overdue c task.
Proof.
  unfold overdue. simpl. rewrite assigned_status_done. reflexivity.
Qed.

Lemma assignTask_store st taskID assignedTo :
  (call (assignTask taskID assignedTo) st).2 = st \/
  exists task,
    Tasks st !! taskID = Some task /\
    (call (assignTask taskID assignedTo) st).2 =
      {| Projects := Projects st;
         Tasks :=
           alter (set_assigned (assignee assignedTo)
                    (if decide (t_status task = ToDo) then InProgress
                     else t_status task)) taskID (Tasks st) |}.
Proof.
  destruct (no_assignee assignedTo) eqn:Ha.
  - left. rewrite assignTask_no_assignee by exact Ha. reflexivity.
  - destruct (Tasks st !! taskID) as [task |] eqn:Ht.
    + right. exists task. split; [reflexivity |].
      rewrite (assignTask_ok st taskID assignedTo task Ha Ht). reflexivity.
    + left. rewrite assignTask_not_found by assumption. reflexivity.
Qed.

(** [assignTask] never completes nor reopens a task: whatever its
    arguments, the statistics of every project and the answer to the
    DELETE of every project are afterwards what they were before. *)
Theorem assignTask_keeps_statistics (commit : Store -> Store) st taskID
    assignedTo :
  let st' := (call (assignTask taskID assignedTo) st).2 in
  forall projectID,
    (forall c, (call (getProjectStats c projectID) st').1 =
               (call (getProjectStats c projectID) st).1) /\
    (write commit (beforeDeleteProjects projectID) st').1 =
      (write commit (beforeDeleteProjects projectID) st).1.
Proof.
  intros st' projectID. subst st'.
  destruct (assignTask_store st taskID assignedTo) as [-> | (task & Ht & ->)];
    [split; reflexivity |].
  split.
  - intros c. apply getProjectStats_same; [reflexivity |]. simpl.
    intros p Hp. apply select_where_alter_same. intros a Ha.
    rewrite Ht in Ha. injection Ha as <-.
    destruct Hp as [-> | [-> | ->]].
    + reflexivity.
    + unfold of_project. simpl. rewrite assigned_status_done. reflexivity.
    + rewrite overdue_set_assigned. reflexivity.
  - apply delete_same. simpl. apply select_where_alter_same. intros a Ha.
    rewrite Ht in Ha. injection Ha as <-.
    unfold active_of, of_project. simpl. rewrite assigned_status_done.
    reflexivity.
Qed.

(** ** Completing a task *)

Lemma completeTask_store c st taskID task :
  Tasks st !! taskID = Some task -> t_status task <> Done ->
  (call (completeTask c taskID) st).2 =
    {| Projects := Projects st;
       Tasks := alter (set_completed (now c)) taskID (Tasks st) |}.
Proof.
  intros Ht Hs. rewrite (completeTask_ok c st taskID task Ht Hs). reflexivity.
Qed.

(** Completing an open task of a project leaves [totalTasks] of the
    project's statistics as it was, raises [completedTasks] by one, takes
    the task out of the overdue ones if it was one of them, and changes
    the statistics of no other project. *)
Theorem completeTask_updates_statistics c c' st taskID task projectID
    project :
  Tasks st !! taskID = Some task -> t_status task <> Done ->
  t_project_ID task = Some projectID ->
  Projects st !! projectID = Some project ->
  let st' := (call (completeTask c taskID) st).2 in
  exists stats stats',
    call (getProjectStats c' projectID) st = (Succeeded stats [], st) /\
    call (getProjectStats c' projectID) st' = (Succeeded stats' [], st') /\
    totalTasks stats' = totalTasks stats /\
    completedTasks stats' = S (completedTasks stats) /\
    overdueTasks stats' + (if overdue c' task then 1 else 0) =
      overdueTasks stats /\
    forall other,
      other <> projectID ->
      (call (getProjectStats c' other) st').1 =
        (call (getProjectStats c' other) st).1.
Proof.
  intros Ht Hs Hp Hproject st'. subst st'.
  rewrite (completeTask_store c st taskID task Ht Hs).
  assert (Hnot : is_done (t_status task) = false)
    by (destruct (t_status task); try reflexivity; contradiction).
  assert (Hof : of_project projectID task = true)
    by (apply of_project_spec; exact Hp).
  eexists _, _.
  split; [eapply getProjectStats_found; exact Hproject |].
  split; [eapply getProjectStats_found; exact Hproject |]. simpl.
  pose proof (select_where_alter (of_project projectID)
                (set_completed (now c)) taskID (Tasks st) task Ht) as Htotal.
  pose proof (select_where_alter
                (fun t => of_project projectID t && is_done (t_status t))
                (set_completed (now c)) taskID (Tasks st) task Ht) as Hdone.
  pose proof (select_where_alter
                (fun t => of_project projectID t && overdue c' t)
                (set_completed (now c)) taskID (Tasks st) task Ht) as Hover.
  assert (Hover' : overdue c' (set_completed (now c) task) = false).
  { unfold overdue. simpl. destruct (t_dueDate task); reflexivity. }
  assert (Hof' : of_project projectID (set_completed (now c) task) = true)
    by exact Hof.
  assert (Hdone' : is_done (t_status (set_completed (now c) task)) = true)
    by reflexivity.
  cbv beta in Htotal, Hdone, Hover.
  rewrite Hof, Hof' in Htotal.
  rewrite Hof, Hof', Hnot, Hdone' in Hdone.
  rewrite Hof, Hof', Hover' in Hover.
  cbn [andb] in Hdone, Hover.
  split; [lia |]. split; [lia |]. split; [lia |].
  intros other Hne. apply getProjectStats_same; [reflexivity |]. simpl.
  intros p Hsel. apply select_where_alter_same. intros a Ha.
  rewrite Ht in Ha. injection Ha as <-.
  assert (Hother : of_project other task = false).
  { unfold of_project. rewrite Hp. apply String.eqb_neq. congruence. }
  assert (Hother' : of_project other (set_completed (now c) task) = false)
    by exact Hother.
  destruct Hsel as [-> | [-> | ->]]; rewrite ?Hother, ?Hother'; reflexivity.
Qed.

(** Completing an open task of a project takes one off the number of
    tasks that block the DELETE of the project; the DELETE passes once
    the last one is completed. *)
Theorem completeTask_unblocks_delete (commit : Store -> Store) c st taskID
    task projectID :
  Tasks st !! taskID = Some task -> t_status task <> Done ->
  t_project_ID task = Some projectID ->
  let st' := (call (completeTask c taskID) st).2 in
  exists n,
    write commit (beforeDeleteProjects projectID) st =
      (Failed
         [(400%Z,
           "Cannot delete project with " +:+ pretty (S n)
           +:+ " active task(s). Complete or reassign them first.")], st) /\
    write commit (beforeDeleteProjects projectID) st' =
      match n with
      | O => (Succeeded tt [], commit st')
      | S _ =>
          (Failed
             [(400%Z,
               "Cannot delete project with " +:+ pretty n
               +:+ " active task(s). Complete or reassign them first.")],
           st')
      end.
Proof.
  intros Ht Hs Hp st'. subst st'.
  rewrite (completeTask_store c st taskID task Ht Hs).
  rewrite !beforeDeleteProjects_run. simpl.
  pose proof (select_where_alter (active_of projectID)
                (set_completed (now c)) taskID (Tasks st) task Ht) as Hcount.
  assert (Hbefore : active_of projectID task = true)
    by (apply active_of_spec; split; assumption).
  assert (Hafter : active_of projectID (set_completed (now c) task) = false).
  { unfold active_of. simpl. apply andb_false_r. }
  rewrite Hbefore, Hafter in Hcount.
  destruct (length (select_where (active_of projectID) (Tasks st)))
    as [| n]; [lia |].
  exists n. split; [reflexivity |].
  replace (length (select_where (active_of projectID)
                     (alter (set_completed (now c)) taskID (Tasks st))))
    with n by lia.
  destruct n; reflexivity.
Qed.

(** Once a task is completed, no READ flags it as overdue, whatever its
    due date, the clock and the time zone. *)
Theorem completeTask_clears_overdue c st taskID task :
  Tasks st !! taskID = Some task -> t_status task <> Done ->
  let st' := (call (completeTask c taskID) st).2 in
  forall c' r,
    r ∈ rows_of (afterReadTasks c' (Single (Tasks st' !! taskID))) ->
    isOverdue r = false /\ t_status (task_row r) = Done /\
    t_dueDate (task_row r) = t_dueDate task.
Proof.
  intros Ht Hs st' c' r. subst st'.
  rewrite (completeTask_store c st taskID task Ht Hs). simpl.
  rewrite (alter_hit _ _ _ _ Ht). simpl. intros Hr.
  apply list_elem_of_singleton in Hr. subst r. simpl.
  split; [| split; reflexivity].
  unfold overdue. simpl. destruct (t_dueDate task); reflexivity.
Qed.

(** ** Assigning a task *)



(** ** Updating a budget *)

Lemma updateProjectBudget_store st projectID newBudget additionalCost :
  (call (updateProjectBudget projectID newBudget additionalCost) st).2 = st \/
  exists project,
    Projects st !! projectID = Some project /\
    (forall b, newBudget = Val b -> (0 <= b)%Z) /\
    (call (updateProjectBudget projectID newBudget additionalCost) st).2 =
      {| Projects :=
           alter (set_budget (updated_budget newBudget project)
                    (Some (js_add (p_actualCost project)
                             (or_zero additionalCost))))
             projectID (Projects st);
         Tasks := Tasks st |}.
Proof.
  destruct (Projects st !! projectID) as [project |] eqn:Hp.
  - destruct (defined newBudget && js_lt newBudget (Val 0%Z)) eqn:Hneg.
    + left. apply negative_budget_test in Hneg.
      destruct Hneg as (b & -> & Hb).
      rewrite (updateProjectBudget_negative st projectID project b
                 additionalCost Hp Hb). reflexivity.
    + right. exists project.
      assert (Hok : forall b, newBudget = Val b -> (0 <= b)%Z).
      { intros b ->. unfold js_lt in Hneg. simpl in Hneg.
        apply Z.ltb_ge in Hneg. exact Hneg. }
      split; [reflexivity |]. split; [exact Hok |].
      rewrite (updateProjectBudget_ok st projectID project newBudget
                 additionalCost Hp Hok). reflexivity.
  - left. rewrite updateProjectBudget_not_found by exact Hp. reflexivity.
Qed.


(** [updateProjectBudget] keeps the stored budgets non-negative whatever
    its arguments, and the stored costs non-negative as long as the
    additional cost is not negative (the sign of the additional cost is
    not checked). *)
Theorem updateProjectBudget_keeps_amounts st projectID newBudget
    additionalCost :
  let st' := (call (updateProjectBudget projectID newBudget additionalCost)
                st).2 in
  (budgets_nonneg st -> budgets_nonneg st') /\
  (costs_nonneg st -> (forall a, additionalCost = Val a -> (0 <= a)%Z) ->
   costs_nonneg st').
Proof.
  intros st'. subst st'.
  destruct (updateProjectBudget_store st projectID newBudget additionalCost)
    as [-> | (project & Hp & Hok & ->)]; [split; auto |].
  split.
  - intros Hinv id p b Hl Hb. simpl in Hl.
    apply lookup_alter_Some in Hl.
    destruct Hl as [[<- (p0 & Hp0 & ->)] | [_ Hl]];
      [| exact (Hinv id p b Hl Hb)].
    simpl in Hb. rewrite Hp in Hp0. injection Hp0 as <-.
    destruct newBudget as [| | nb]; simpl in Hb.
    + exact (Hinv projectID project b Hp Hb).
    + discriminate.
    + injection Hb as <-. apply Hok. reflexivity.
  - intros Hinv Hadd id p c Hl Hc. simpl in Hl.
    apply lookup_alter_Some in Hl.
    destruct Hl as [[<- (p0 & Hp0 & ->)] | [_ Hl]];
      [| exact (Hinv id p c Hl Hc)].
    simpl in Hc. rewrite Hp in Hp0. injection Hp0 as <-.
    injection Hc as <-. unfold js_add.
    assert (0 <= default 0 (p_actualCost project))%Z.
    { destruct (p_actualCost project) as [c0 |] eqn:Hc0; simpl; [| lia].
      exact (Hinv projectID project c0 Hp Hc0). }
    assert (0 <= or_zero additionalCost)%Z.
    { destruct additionalCost as [| | a]; simpl; try lia.
      apply Hadd. reflexivity. }
    lia.
Qed.

(** ** The handler on whole amounts *)

(** Integers below 2^53 are doubles, and as long as their sums and
    differences stay below 2^53 the binary64 operations on them are the
    operations on the integers. *)
Lemma shl_spec p k : (0 <= k)%Z -> Zpos (shl p k) = (Zpos p * 2 ^ k)%Z.
Proof.
  intros Hk. destruct k as [| j | j]; simpl; [lia | | lia].
  change (Pos.iter xO p j) with (shift_pos j p).
  rewrite shift_pos_correct, Z.pow_pos_fold. lia.
Qed.

Lemma shl_shl p a b :
  (0 <= a)%Z -> (0 <= b)%Z -> shl (shl p a) b = shl p (a + b).
Proof.
  intros Ha Hb. apply Pos2Z.inj. rewrite !shl_spec by lia.
  rewrite Z.pow_add_r by lia. lia.
Qed.

Lemma digits2_pos_shl p k :
  (0 <= k)%Z -> Zpos (digits2_pos (shl p k)) = (Zpos (digits2_pos p) + k)%Z.
Proof.
  intros Hk. destruct k as [| j | j]; simpl; [lia | | lia].
  rewrite digits2_pos_iter. lia.
Qed.

Lemma iter_pos_iter {A} (f : A -> A) n x :
  SpecFloat.iter_pos f n x = Pos.iter f x n.
Proof.
  revert x. induction n as [n IH | n IH |]; intros x; simpl.
  - rewrite !IH, !Pos.iter_swap. reflexivity.
  - rewrite !IH. reflexivity.
  - reflexivity.
Qed.

Lemma iter_pos_shr_1 q n :
  SpecFloat.iter_pos shr_1 n
    {| shr_m := Zpos (Pos.iter xO q n); shr_r := false; shr_s := false |} =
    {| shr_m := Zpos q; shr_r := false; shr_s := false |}.
Proof.
  rewrite iter_pos_iter.
  induction n as [| n IH] using Pos.peano_ind.
  - reflexivity.
  - rewrite Pos.iter_succ_r, Pos.iter_succ. exact IH.
Qed.

Lemma digits2_pos_53 m :
  Zpos (digits2_pos m) = 53%Z -> digits2_pos m = 53%positive.
Proof. intros H. apply Pos2Z.inj. exact H. Qed.

Lemma binary_round_aux_shifted s q j e :
  digits2_pos q = 53%positive -> (-1074 <= e + Zpos j <= 971)%Z ->
  binary_round_aux 53 1024 s (Zpos (Pos.iter xO q j)) e loc_Exact =
    S754_finite s q (e + Zpos j).
Proof.
  intros Hd He. unfold binary_round_aux.
  assert (Hshr : shr_fexp 53 1024 (Zpos (Pos.iter xO q j)) e loc_Exact =
                 ({| shr_m := Zpos q; shr_r := false; shr_s := false |},
                  (e + Zpos j)%Z)).
  { unfold shr_fexp, fexp, emin. cbn [Zdigits2 shr_record_of_loc].
    rewrite digits2_pos_iter, Hd.
    replace (Z.max (Zpos (53 + j) + e - 53) (3 - 1024 - 53) - e)%Z
      with (Zpos j) by lia.
    unfold shr. rewrite iter_pos_shr_1. reflexivity. }
  rewrite Hshr. cbn [shr_m loc_of_shr_record round_nearest_even].
  rewrite (shr_fexp_exact q _ Hd) by lia.
  cbn [shr_m].
  replace (Z.leb (e + Zpos j) (Z.sub 1024 53)) with true
    by (symmetry; apply Z.leb_le; lia).
  reflexivity.
Qed.

Lemma binary_round_shl s p k :
  (Zpos (digits2_pos p) <= 53)%Z -> (0 <= k)%Z ->
  binary_round 53 1024 s (shl p k) (- k) =
    S754_finite s (shl p (53 - Zpos (digits2_pos p)))
      (Zpos (digits2_pos p) - 53).
Proof.
  intros Hd Hk. unfold binary_round.
  rewrite digits2_pos_shl by exact Hk. unfold fexp, emin.
  set (d := Zpos (digits2_pos p)) in *.
  assert (Hpos : (0 < d)%Z) by (subst d; lia).
  replace (Z.max (d + k + - k - 53) (3 - 1024 - 53))%Z with (d - 53)%Z by lia.
  assert (Hq : Zpos (digits2_pos (shl p (53 - d))) = 53%Z)
    by (rewrite digits2_pos_shl by lia; fold d; lia).
  apply digits2_pos_53 in Hq.
  unfold shl_align. destruct (d - 53 - - k)%Z as [| j | j] eqn:Hj.
  - replace k with (53 - d)%Z by lia.
    replace (- (53 - d))%Z with (d - 53)%Z by lia.
    apply binary_round_aux_exact; [exact Hq | lia].
  - replace (shl p k) with (Pos.iter xO (shl p (53 - d)) j).
    + rewrite (binary_round_aux_shifted s _ j (- k) Hq) by lia.
      f_equal. lia.
    + change (Pos.iter xO (shl p (53 - d)) j)
        with (shl (shl p (53 - d)) (Zpos j)).
      rewrite shl_shl by lia. f_equal. lia.
  - change (Pos.iter xO (shl p k) j) with (shl (shl p k) (Zpos j)).
    rewrite shl_shl by lia.
    replace (k + Zpos j)%Z with (53 - d)%Z by lia.
    apply binary_round_aux_exact; [exact Hq | lia].
Qed.

(** The double of an integer below 2^53. *)
Lemma Number_scaled z k :
  (Z.abs z < 2 ^ 53)%Z -> (0 <= k)%Z ->
  binary_normalize 53 1024 (z * 2 ^ k) (- k) false = Number z.
Proof.
  intros Hz Hk. unfold Number.
  destruct z as [| p | p].
  - reflexivity.
  - rewrite <- shl_spec by exact Hk. cbn [binary_normalize].
    change (binary_round 53 1024 false p 0)
      with (binary_round 53 1024 false (shl p 0) (- 0)).
    rewrite (binary_round_shl false p k), (binary_round_shl false p 0);
      try lia; try (apply digits2_pos_bound; lia).
    reflexivity.
  - replace (Zneg p * 2 ^ k)%Z with (Zneg (shl p k))
      by (rewrite <- Pos2Z.opp_pos, shl_spec by exact Hk; lia).
    cbn [binary_normalize].
    change (binary_round 53 1024 true p 0)
      with (binary_round 53 1024 true (shl p 0) (- 0)).
    rewrite (binary_round_shl true p k), (binary_round_shl true p 0);
      try lia; try (apply digits2_pos_bound; lia).
    reflexivity.
Qed.

Lemma Number_cases z :
  (Z.abs z < 2 ^ 53)%Z ->
  (z = 0%Z /\ Number z = S754_zero false) \/
  exists s p K,
    z = cond_Zopp s (Zpos p) /\ (0 <= K)%Z /\
    Number z = S754_finite s (shl p K) (- K).
Proof.
  intros Hz. destruct z as [| p | p].
  - left. split; reflexivity.
  - right. exists false, p, (53 - Zpos (digits2_pos p))%Z.
    assert (Hd : (Zpos (digits2_pos p) <= 53)%Z)
      by (apply digits2_pos_bound; lia).
    split; [reflexivity |]. split; [lia |].
    unfold Number. cbn [binary_normalize].
    change (binary_round 53 1024 false p 0)
      with (binary_round 53 1024 false (shl p 0) (- 0)).
    rewrite binary_round_shl by lia. f_equal. lia.
  - right. exists true, p, (53 - Zpos (digits2_pos p))%Z.
    assert (Hd : (Zpos (digits2_pos p) <= 53)%Z)
      by (apply digits2_pos_bound; lia).
    split; [reflexivity |]. split; [lia |].
    unfold Number. cbn [binary_normalize].
    change (binary_round 53 1024 true p 0)
      with (binary_round 53 1024 true (shl p 0) (- 0)).
    rewrite binary_round_shl by lia. f_equal. lia.
Qed.

Lemma shl_align_shl p K ez :
  (0 <= K)%Z -> (ez <= - K)%Z ->
  fst (shl_align (shl p K) (- K) ez) = shl p (- ez).
Proof.
  intros HK Hez. unfold shl_align.
  destruct (ez - - K)%Z as [| j | j] eqn:Hj; cbn [fst].
  - f_equal. lia.
  - lia.
  - change (Pos.iter xO (shl p K) j) with (shl (shl p K) (Zpos j)).
    rewrite shl_shl by lia. f_equal. lia.
Qed.

Lemma cond_Zopp_shl s p k :
  (0 <= k)%Z ->
  cond_Zopp s (Zpos (shl p k)) = (cond_Zopp s (Zpos p) * 2 ^ k)%Z.
Proof.
  intros Hk. rewrite shl_spec by exact Hk. destruct s; simpl; lia.
Qed.

(** On integers below 2^53 whose sum is below 2^53 the sum of the doubles
    is the double of the sum. *)
Lemma SFadd_Number a b :
  (Z.abs a < 2 ^ 53)%Z -> (Z.abs b < 2 ^ 53)%Z -> (Z.abs (a + b) < 2 ^ 53)%Z ->
  SFadd 53 1024 (Number a) (Number b) = Number (a + b).
Proof.
  intros Ha Hb Hab.
  destruct (Number_cases a Ha) as [[-> Ea] | (sa & pa & Ka & Hza & HKa & Ea)];
    destruct (Number_cases b Hb) as [[-> Eb] | (sb & pb & Kb & Hzb & HKb & Eb)].
  - reflexivity.
  - rewrite Ea. rewrite Z.add_0_l. rewrite Eb. reflexivity.
  - rewrite Eb. rewrite Z.add_0_r. rewrite Ea. reflexivity.
  - rewrite Ea, Eb. cbn [SFadd].
    set (ez := Z.min (- Ka) (- Kb)).
    rewrite !shl_align_shl by lia.
    rewrite !cond_Zopp_shl by lia. rewrite <- Hza, <- Hzb.
    rewrite <- Z.mul_add_distr_r.
    assert (Hk : (0 <= - ez)%Z) by lia.
    assert (Hez : ez = (- - ez)%Z) by lia.
    revert Hk Hez. generalize (- ez)%Z. intros k Hk Hez. rewrite Hez.
    apply Number_scaled; lia.
Qed.

Lemma Number_opp z :
  (Z.abs z < 2 ^ 53)%Z -> z <> 0%Z -> Number (- z) = SFopp (Number z).
Proof.
  intros Hz Hnz.
  assert (Hpos : forall s p, (Zpos p < 2 ^ 53)%Z ->
            binary_round 53 1024 s p 0 =
              S754_finite s (shl p (53 - Zpos (digits2_pos p)))
                (Zpos (digits2_pos p) - 53)).
  { intros s p Hp.
    change (binary_round 53 1024 s p 0)
      with (binary_round 53 1024 s (shl p 0) (- 0)).
    apply binary_round_shl; [apply digits2_pos_bound; exact Hp | lia]. }
  destruct z as [| p | p]; [contradiction | |].
  - change (Number (- Zpos p)) with (binary_round 53 1024 true p 0).
    change (Number (Zpos p)) with (binary_round 53 1024 false p 0).
    rewrite !Hpos by lia. reflexivity.
  - change (Number (- Zneg p)) with (binary_round 53 1024 false p 0).
    change (Number (Zneg p)) with (binary_round 53 1024 true p 0).
    rewrite !Hpos by lia. reflexivity.
Qed.

Lemma SFsub_Number a b :
  (Z.abs a < 2 ^ 53)%Z -> (Z.abs b < 2 ^ 53)%Z -> (Z.abs (a - b) < 2 ^ 53)%Z ->
  SFsub 53 1024 (Number a) (Number b) = Number (a - b).
Proof.
  intros Ha Hb Hab.
  destruct (Number_cases a Ha) as [[-> Ea] | (sa & pa & Ka & Hza & HKa & Ea)];
    destruct (Number_cases b Hb) as [[-> Eb] | (sb & pb & Kb & Hzb & HKb & Eb)].
  - reflexivity.
  - assert (Hnz : b <> 0%Z) by (destruct sb; simpl in Hzb; lia).
    rewrite Z.sub_0_l, (Number_opp b Hb Hnz), Ea, Eb. reflexivity.
  - rewrite Eb. rewrite Z.sub_0_r. rewrite Ea. reflexivity.
  - rewrite Ea, Eb. cbn [SFsub].
    set (ez := Z.min (- Ka) (- Kb)).
    rewrite !shl_align_shl by lia.
    rewrite !cond_Zopp_shl by lia. rewrite <- Hza, <- Hzb.
    rewrite <- Z.mul_sub_distr_r.
    assert (Hk : (0 <= - ez)%Z) by lia.
    assert (Hez : ez = (- - ez)%Z) by lia.
    revert Hk Hez. generalize (- ez)%Z. intros k Hk Hez. rewrite Hez.
    apply Number_scaled; lia.
Qed.

Ltac amounts :=
  unfold whole_amount in *;
  change (10 ^ 8)%Z with 100000000%Z in *;
  change (2 ^ 53)%Z with 9007199254740992%Z in *.

Lemma ToNumber_amount c : Js.ToNumber (amount c) = Number (default 0%Z c).
Proof. destruct c; reflexivity. Qed.

Lemma lt_argument x :
  whole_amount (or_zero x) ->
  Js.lt (argument x) (Number 0) = js_lt x (Val 0%Z).
Proof.
  intros Hx. destruct x as [| | b]; try reflexivity.
  unfold Js.lt, js_lt. cbn [argument Js.ToNumber toNumber].
  simpl in Hx.
  destruct (Number_cases b) as [[-> E] | (s & p & K & Hz & HK & E)];
    [amounts; lia | reflexivity |].
  rewrite E. subst b. destruct s; reflexivity.
Qed.

Lemma or_argument x :
  whole_amount (or_zero x) ->
  Js.or (argument x) (Js.Num (Number 0)) = Js.Num (Number (or_zero x)).
Proof.
  intros Hx. destruct x as [| | b]; try reflexivity.
  unfold Js.or. cbn [argument or_zero]. simpl in Hx.
  destruct (Number_cases b) as [[-> E] | (s & p & K & Hz & HK & E)];
    [amounts; lia | reflexivity |].
  rewrite E. reflexivity.
Qed.

Lemma plus_amount c y :
  whole_amount (default 0%Z c) -> whole_amount y ->
  Js.plus (amount c) (Js.Num (Number y)) = Js.Num (Number (js_add c y)).
Proof.
  intros Hc Hy. unfold js_add.
  destruct c as [c |]; simpl in Hc; cbn [amount Js.plus Js.ToNumber].
  - rewrite SFadd_Number by (amounts; lia). reflexivity.
  - change (S754_zero false) with (Number 0).
    rewrite SFadd_Number by (amounts; lia). reflexivity.
Qed.

Lemma minus_amount a b x y :
  Js.ToNumber a = Number x -> Js.ToNumber b = Number y ->
  (Z.abs x < 10 ^ 8)%Z -> (Z.abs y < 2 * 10 ^ 8)%Z ->
  Js.minus a b = Js.Num (Number (x - y)).
Proof.
  intros Ha Hb Hx Hy. unfold Js.minus. rewrite Ha, Hb.
  rewrite SFsub_Number by (amounts; lia). reflexivity.
Qed.

Lemma amounts_of_alter f g id (tbl : gmap string Project) :
  (forall p, amounts_of (f p) = g (amounts_of p)) ->
  amounts_of <$> alter f id tbl = alter g id (amounts_of <$> tbl).
Proof.
  intros Hfg. apply map_eq. intros i. rewrite lookup_fmap.
  destruct (decide (id = i)) as [<- | Hne].
  - rewrite !lookup_alter_eq, lookup_fmap.
    destruct (tbl !! id); simpl; [rewrite Hfg |]; reflexivity.
  - rewrite !lookup_alter_ne by exact Hne. rewrite lookup_fmap. reflexivity.
Qed.

(** On whole amounts of the range of the columns, given as numbers, the
    handler on JavaScript values answers and stores what the handler on
    integers does. *)
Theorem updateProjectBudget_whole_amounts st projectID newBudget
    additionalCost :
  (forall project,
     Projects st !! projectID = Some project ->
     whole_amount (default 0%Z (p_budget project)) /\
     whole_amount (default 0%Z (p_actualCost project))) ->
  whole_amount (or_zero newBudget) -> whole_amount (or_zero additionalCost) ->
  exists r st',
    call (updateProjectBudget projectID newBudget additionalCost) st =
      (Succeeded r [], st') /\
    Js.updateProjectBudget projectID (argument newBudget)
      (argument additionalCost) (amounts_of <$> Projects st) =
      (answer_of r, amounts_of <$> Projects st').
Proof.
  intros Hrow Hb Hc. unfold Js.updateProjectBudget. rewrite lookup_fmap.
  destruct (Projects st !! projectID) as [project |] eqn:Hp.
  - destruct (Hrow project eq_refl) as [Hpb Hpc].
    cbn [fmap option_fmap option_map].
    assert (Hdef : Js.defined (argument newBudget) = defined newBudget)
      by (destruct newBudget; reflexivity).
    rewrite Hdef, (lt_argument newBudget Hb).
    destruct (defined newBudget && js_lt newBudget (Val 0%Z)) eqn:Hneg.
    + destruct newBudget as [| | b]; try discriminate Hneg.
      assert (Hlt : (b < 0)%Z) by (apply Z.ltb_lt; exact Hneg).
      eexists _, _. split.
      * apply updateProjectBudget_negative; eassumption.
      * unfold answer_of. cbn [b_success b_message b_remainingBudget].
        cbn [amounts_of Js.budget Js.actualCost].
        rewrite (minus_amount _ _ _ _ (ToNumber_amount _) (ToNumber_amount _))
          by (amounts; lia).
        reflexivity.
    + assert (Hok : forall b, newBudget = Val b -> (0 <= b)%Z).
      { intros b ->. simpl in Hneg. apply Z.ltb_ge in Hneg. exact Hneg. }
      eexists _, _. split.
      * apply updateProjectBudget_ok; eassumption.
      * unfold answer_of. cbn [b_success b_message b_remainingBudget Projects].
        cbn [amounts_of Js.budget Js.actualCost Js.name].
        rewrite (or_argument additionalCost Hc).
        rewrite (plus_amount _ _ Hpc Hc).
        assert (Hbudget :
          (if defined newBudget then argument newBudget
           else amount (p_budget project)) =
          amount (updated_budget newBudget project))
          by (destruct newBudget; reflexivity).
        rewrite Hbudget.
        assert (Hub : whole_amount
                        (default 0%Z (updated_budget newBudget project)))
          by (destruct newBudget; simpl in *; try assumption; amounts; lia).
        rewrite (minus_amount (amount (updated_budget newBudget project))
                   (Js.Num (Number (js_add (p_actualCost project)
                                      (or_zero additionalCost))))
                   _ _ (ToNumber_amount _) eq_refl)
          by (unfold js_add; amounts; lia).
        f_equal. unfold Js.update. symmetry. apply amounts_of_alter.
        intros p. reflexivity.
  - eexists _, _. split.
    + apply updateProjectBudget_not_found. exact Hp.
    + reflexivity.
Qed.

(** ** Rows and keys *)

Lemma completeTask_store_cases c st taskID :
  (call (completeTask c taskID) st).2 = st \/
  (call (completeTask c taskID) st).2 =
    {| Projects := Projects st;
       Tasks := alter (set_completed (now c)) taskID (Tasks st) |}.
Proof.
  destruct (Tasks st !! taskID) as [task |] eqn:Ht.
  - destruct (decide (t_status task = Done)) as [Hd | Hd].
    + left. rewrite (completeTask_already_done c st taskID task Ht Hd).
      reflexivity.
    + right. apply (completeTask_store c st taskID task Ht Hd).
  - left. rewrite completeTask_not_found by exact Ht. reflexivity.
Qed.

Lemma keyed_alter_Tasks st f taskID :
  (forall t, t_ID (f t) = t_ID t) -> keyed st ->
  keyed {| Projects := Projects st; Tasks := alter f taskID (Tasks st) |}.
Proof.
  intros Hf [Hprojects Htasks]. split; [exact Hprojects |]. simpl.
  intros id t Hl. apply lookup_alter_Some in Hl.
  destruct Hl as [[<- (t0 & Ht0 & ->)] | [_ Hl]].
  - rewrite Hf. apply Htasks. exact Ht0.
  - apply Htasks. exact Hl.
Qed.

Lemma keyed_alter_Projects st f projectID :
  (forall p, p_ID (f p) = p_ID p) -> keyed st ->
  keyed {| Projects := alter f projectID (Projects st); Tasks := Tasks st |}.
Proof.
  intros Hf [Hprojects Htasks]. split; [| exact Htasks]. simpl.
  intros id p Hl. apply lookup_alter_Some in Hl.
  destruct Hl as [[<- (p0 & Hp0 & ->)] | [_ Hl]].
  - rewrite Hf. apply Hprojects. exact Hp0.
  - apply Hprojects. exact Hl.
Qed.

(** The three actions that write never create or delete a row and never
    touch an [ID]: whatever their arguments, both tables keep their keys,
    and a store whose rows are filed under their own [ID] stays so. *)
Theorem actions_keep_rows c st id :
  (forall assignedTo,
     let st' := (call (assignTask id assignedTo) st).2 in
     dom (Tasks st') = dom (Tasks st) /\
     dom (Projects st') = dom (Projects st) /\ (keyed st -> keyed st')) /\
  (let st' := (call (completeTask c id) st).2 in
   dom (Tasks st') = dom (Tasks st) /\
   dom (Projects st') = dom (Projects st) /\ (keyed st -> keyed st')) /\
  (forall newBudget additionalCost,
     let st' :=
       (call (updateProjectBudget id newBudget additionalCost) st).2 in
     dom (Tasks st') = dom (Tasks st) /\
     dom (Projects st') = dom (Projects st) /\ (keyed st -> keyed st')).
Proof.
  split; [| split].
  - intros assignedTo st'. subst st'.
    destruct (assignTask_store st id assignedTo) as [-> | (task & _ & ->)];
      [auto |]. simpl.
    split; [apply dom_alter_L |]. split; [reflexivity |].
    apply keyed_alter_Tasks. reflexivity.
  - intros st'. subst st'.
    destruct (completeTask_store_cases c st id) as [-> | ->]; [auto |]. simpl.
    split; [apply dom_alter_L |]. split; [reflexivity |].
    apply keyed_alter_Tasks. reflexivity.
  - intros newBudget additionalCost st'. subst st'.
    destruct (updateProjectBudget_store st id newBudget additionalCost)
      as [-> | (project & _ & _ & ->)]; [auto |]. simpl.
    split; [reflexivity |]. split; [apply dom_alter_L |].
    apply keyed_alter_Projects. reflexivity.
Qed.

(** * Instances on the sample rows *)

(** A task with -1 estimated hours is turned down. *)
Lemma task_hours_instance :
  exists errs,
    write (fun st => st)
      (beforeWriteTasks
         {| estimatedHours := Val (-1)%Z; actualHours := Undefined;
            project_ID := Undefined |}) sampleStore =
      (Failed errs, sampleStore) /\
    (400%Z, "Estimated hours cannot be negative") ∈ errs.
Proof.
  destruct (task_hours_validated (fun st => st) sampleStore
              {| estimatedHours := Val (-1)%Z; actualHours := Undefined;
                 project_ID := Undefined |} (-1)%Z) as [Hest _]; [lia |].
  apply Hest. reflexivity.
Defined.

(** A task for the project Q, which the sample store does not hold. *)
Lemma task_reference_instance :
  exists errs,
    write (fun st => st)
      (beforeWriteTasks
         {| estimatedHours := Val 2%Z; actualHours := Undefined;
            project_ID := Val "Q" |}) sampleStore =
      (Failed (errs ++ [(404%Z, "Project with ID Q not found")]),
       sampleStore) /\
    Forall (fun err : Z * string => err.1 = 400%Z) errs.
Proof.
  apply (task_reference_validated (fun st => st) sampleStore
           {| estimatedHours := Val 2%Z; actualHours := Undefined;
              project_ID := Val "Q" |} "Q").
  - reflexivity.
  - discriminate.
  - vm_compute. reflexivity.
Defined.

(** All 40 tasks Done: the project is read with the rate 100. *)
Lemma all_done_instance :
  completionRate
    (project_fields (fortyTasks 40)
       (sampleProject "P" (Some 1000%Z) (Some 0%Z))) = Number 100.
Proof.
  destruct (afterReadProjects_all_or_none (fortyTasks 40)
              (Single (Some (sampleProject "P" (Some 1000%Z) (Some 0%Z))))
              (project_fields (fortyTasks 40)
                 (sampleProject "P" (Some 1000%Z) (Some 0%Z))))
    as [Hall _]; [vm_compute; reflexivity | apply list_elem_of_here |].
  apply Hall.
  - exists "T0", (sampleTask "T0" Done None (Some "P")).
    split; [vm_compute; reflexivity | reflexivity].
  - apply (bool_decide_unpack
             (map_Forall (fun (_ : string) (t : Task) =>
                t_project_ID t = Some "P" -> t_status t = Done)
                (Tasks (fortyTasks 40)))).
    vm_compute. exact I.
Defined.

(** On the UTC server the task due today is not flagged, the one due
    yesterday is. *)
Lemma local_date_instance :
  task_row <$>
    rows_of (afterReadTasks sameInstantUTC
               (Collection [sampleTask "T" ToDo (Some 19737%Z) (Some "P");
                            sampleTask "V" ToDo (Some 19736%Z) (Some "P")]))
  = [sampleTask "T" ToDo (Some 19737%Z) (Some "P");
     sampleTask "V" ToDo (Some 19736%Z) (Some "P")].
Proof.
  apply (afterReadTasks_local_date sameInstantUTC
           (Collection [sampleTask "T" ToDo (Some 19737%Z) (Some "P");
                        sampleTask "V" ToDo (Some 19736%Z) (Some "P")])).
  unfold msPerDay. simpl. lia.
Defined.

(** West of UTC the task due today is flagged. *)
Lemma west_of_UTC_instance :
  isOverdue {| task_row := sampleTask "T" ToDo (Some 19737%Z) (Some "P");
               isOverdue := true |} = true <->
  ToDo <> Done /\
  exists d, Some 19737%Z = Some d /\ (d <= localDate noonWestOfUTC)%Z.
Proof.
  apply (afterReadTasks_west_of_UTC noonWestOfUTC
           (Single (Some (sampleTask "T" ToDo (Some 19737%Z) (Some "P"))))).
  - unfold msPerDay. simpl. lia.
  - vm_compute. apply list_elem_of_here.
Defined.

(** The sample project has two tasks, one of them Done. *)
Lemma statistics_instance :
  exists stats,
    call (getProjectStats sameInstantUTC "P") sampleStore =
      (Succeeded stats [], sampleStore) /\
    completedTasks stats + overdueTasks stats <= totalTasks stats.
Proof.
  destruct (getProjectStats_counts sameInstantUTC sampleStore "P"
              (sampleProject "P" (Some 1000%Z) (Some 0%Z)))
    as (stats & Hcall & _ & _ & _ & Hle); [vm_compute; reflexivity |].
  exists stats. split; assumption.
Defined.

Lemma statistics_reads_instance :
  exists stats,
    call (getProjectStats sameInstantUTC "P") sampleStore =
      (Succeeded stats [], sampleStore) /\
    forall r,
      r ∈ rows_of (afterReadProjects sampleStore
                     (Single (Some (sampleProject "P" (Some 1000%Z)
                                      (Some 0%Z))))) ->
      completionRate r = statsCompletionRate stats.
Proof.
  destruct (getProjectStats_agrees_with_reads sameInstantUTC sampleStore
              (sampleProject "P" (Some 1000%Z) (Some 0%Z)))
    as (stats & Hcall & Hrate & _); [vm_compute; reflexivity |].
  exists stats. split; assumption.
Defined.

Lemma delete_statistics_instance :
  exists stats,
    call (getProjectStats sameInstantUTC "P") sampleStore =
      (Succeeded stats [], sampleStore) /\
    ((write (fun st => st) (beforeDeleteProjects "P") sampleStore).1
       = Succeeded tt []
     <-> completedTasks stats = totalTasks stats).
Proof.
  destruct (delete_iff_all_completed (fun st => st) sameInstantUTC
              sampleStore "P" (sampleProject "P" (Some 1000%Z) (Some 0%Z)))
    as (stats & Hcall & Hiff & _); [vm_compute; reflexivity |].
  exists stats. split; assumption.
Defined.

(** Completing the open task T of the sample project. *)
Lemma completed_statistics_instance :
  exists stats stats',
    call (getProjectStats sameInstantUTC "P") sampleStore =
      (Succeeded stats [], sampleStore) /\
    (call (getProjectStats sameInstantUTC "P")
       (call (completeTask sameInstantUTC "T") sampleStore).2).1 =
      Succeeded stats' [] /\
    completedTasks stats' = S (completedTasks stats).
Proof.
  destruct (completeTask_updates_statistics sameInstantUTC sameInstantUTC
              sampleStore "T" (sampleTask "T" ToDo (Some 19737%Z) (Some "P"))
              "P" (sampleProject "P" (Some 1000%Z) (Some 0%Z)))
    as (stats & stats' & H1 & H2 & _ & Hdone & _);
    [vm_compute; reflexivity | discriminate | reflexivity
    | vm_compute; reflexivity |].
  exists stats, stats'. rewrite H2. repeat split; assumption.
Defined.

Lemma completed_delete_instance :
  exists n,
    write (fun st => st) (beforeDeleteProjects "P") sampleStore =
      (Failed
         [(400%Z,
           "Cannot delete project with " +:+ pretty (S n)
           +:+ " active task(s). Complete or reassign them first.")],
       sampleStore).
Proof.
  destruct (completeTask_unblocks_delete (fun st => st) sameInstantUTC
              sampleStore "T" (sampleTask "T" ToDo (Some 19737%Z) (Some "P"))
              "P") as (n & Hbefore & _);
    [vm_compute; reflexivity | discriminate | reflexivity |].
  exists n. exact Hbefore.
Defined.

Lemma completed_not_overdue_instance :
  overdue noonWestOfUTC
    (set_completed (now sameInstantUTC)
       (sampleTask "T" ToDo (Some 19737%Z) (Some "P"))) = false.
Proof.
  apply (completeTask_clears_overdue sameInstantUTC sampleStore "T"
           (sampleTask "T" ToDo (Some 19737%Z) (Some "P"))
           ltac:(vm_compute; reflexivity) ltac:(discriminate)
           noonWestOfUTC
           {| task_row :=
                set_completed (now sameInstantUTC)
                  (sampleTask "T" ToDo (Some 19737%Z) (Some "P"));
              isOverdue :=
                overdue noonWestOfUTC
                  (set_completed (now sameInstantUTC)
                     (sampleTask "T" ToDo (Some 19737%Z) (Some "P"))) |}).
  vm_compute. apply list_elem_of_here.
Defined.



Lemma whole_amounts_instance :
  exists r st',
    call (updateProjectBudget "P" (Val 1200%Z) (Val 300%Z)) sampleStore =
      (Succeeded r [], st') /\
    Js.updateProjectBudget "P" (argument (Val 1200%Z)) (argument (Val 300%Z))
      (amounts_of <$> Projects sampleStore) =
      (answer_of r, amounts_of <$> Projects st').
Proof.
  apply (updateProjectBudget_whole_amounts sampleStore "P" (Val 1200%Z)
           (Val 300%Z)).
  - intros project Hp. vm_compute in Hp. injection Hp as <-.
    split; vm_compute; reflexivity.
  - vm_compute. reflexivity.
  - vm_compute. reflexivity.
Defined.
